(** * translate_srt_ru: the batch translation protocol

    A shallow embedding of [translate_srt_ru.py]: the block parser,
    the structured / per-line translator with its retry loop, the
    reassembly of translated blocks and the per-file driver.

    Python strings are sequences of Unicode code points, so a [str] is a
    list of code points.  The interpreter primitives the script relies on
    ([str.strip], [str.splitlines], [str.find], [json.loads],
    [json.dumps]) are written out next to the functions that use them. *)

From Stdlib Require Import ZArith NArith List Lia Bool Ascii String.
From Stdlib Require Import DecimalString DecimalNat DecimalFacts.
From stdpp Require Import base option list gmap.

Local Open Scope N_scope.

Abbreviation char := N (only parsing).
Abbreviation str := (list N) (only parsing).

(** ASCII text as code points: every byte of the literal is its own code
    point. *)
Definition u (s : string) : str :=
  List.map N_of_ascii (list_ascii_of_string s).

Definition DQ : char := 34.   (* the double quote *)
Definition LF : char := 10.   (* \n *)

(** ** Interpreter primitives on [str] *)

Module Py.

(** [str.isspace] on one code point. *)
Definition isspace (c : char) : bool :=
  ((9 <=? c) && (c <=? 13)) || ((28 <=? c) && (c <=? 32))
  || (c =? 133) || (c =? 160) || (c =? 5760)
  || ((8192 <=? c) && (c <=? 8202))
  || (c =? 8232) || (c =? 8233) || (c =? 8239) || (c =? 8287)
  || (c =? 12288).

(** The line boundaries of [str.splitlines]. *)
Definition islinebreak (c : char) : bool :=
  ((10 <=? c) && (c <=? 13)) || ((28 <=? c) && (c <=? 30))
  || (c =? 133) || (c =? 8232) || (c =? 8233).

Fixpoint lstrip (s : str) : str :=
  match s with
  | c :: s' => if isspace c then lstrip s' else s
  | [] => []
  end.

(** A surrogate: a code point that a [str] can hold and that UTF-8
    cannot encode. *)
Definition is_surrogate (c : char) : bool := (55296 <=? c) && (c <=? 57343).

(** [s.encode("utf-8")] succeeds: it raises [UnicodeEncodeError] for a
    string that holds a surrogate. *)
Definition encodable (s : str) : bool :=
  forallb (fun c => negb (is_surrogate c)) s.

Definition rstrip (s : str) : str := rev (lstrip (rev s)).

Definition strip (s : str) : str := lstrip (rstrip s).

(** [str.splitlines()]: [cur] is the line being read.  A carriage
    return directly followed by a line feed is one boundary, and a last
    line without terminator is kept when it is not empty. *)
Fixpoint splitlines_from (cur : str) (s : str) : list str :=
  match s with
  | [] => match cur with [] => [] | _ => [cur] end
  | c :: s' =>
      if islinebreak c then
        cur :: match s' with
               | c' :: s'' =>
                   if (c =? 13) && (c' =? 10)
                   then splitlines_from [] s''
                   else splitlines_from [] s'
               | [] => splitlines_from [] s'
               end
      else splitlines_from (cur ++ [c]) s'
  end.

Definition splitlines (s : str) : list str := splitlines_from [] s.

(** [s.find(c)] and [s.rfind(c)] for a one-character needle: the index
    of the first (last) occurrence, or -1. *)
Fixpoint find_from (c : char) (s : str) (i : Z) : Z :=
  match s with
  | [] => (-1)%Z
  | x :: s' => if x =? c then i else find_from c s' (i + 1)%Z
  end.

Definition find (s : str) (c : char) : Z := find_from c s 0%Z.

Fixpoint rfind_from (c : char) (s : str) (i last : Z) : Z :=
  match s with
  | [] => last
  | x :: s' => rfind_from c s' (i + 1)%Z (if x =? c then i else last)
  end.

Definition rfind (s : str) (c : char) : Z := rfind_from c s 0%Z (-1)%Z.

(** [s[a:b]] for indices that are not negative. *)
Definition slice {A} (s : list A) (a b : Z) : list A :=
  take (Z.to_nat (b - a)) (drop (Z.to_nat a) s).

(** [s.endswith(t)]. *)
Definition endswith (s t : str) : bool :=
  bool_decide (drop (length s - length t)%nat s = t).

(** [str(n)] for a natural number. *)
Definition str_of_nat (n : nat) : str :=
  u (NilZero.string_of_uint (Nat.to_uint n)).

(** [range(start, stop, step)] for a positive step. *)
Definition range_step (start stop step : nat) : list nat :=
  List.map (fun k => (start + k * step)%nat)
           (seq 0 ((stop - start + step - 1) / step)%nat).

(** Reading a file in text mode: a carriage return, alone or followed
    by a line feed, is read as one line feed. *)
Fixpoint universal_newlines (s : str) : str :=
  match s with
  | [] => []
  | c :: s' =>
      if c =? 13 then
        10 :: match s' with
              | c' :: s'' =>
                  if c' =? 10 then universal_newlines s''
                  else universal_newlines s'
              | [] => []
              end
      else c :: universal_newlines s'
  end.

End Py.

(** ** Values produced by [json.loads] *)

#[warnings="-register-all"]
Inductive value : Type :=
| VNone
| VBool (b : bool)
| VInt (z : Z)
| VFloat (lexeme : str)   (* the number as written; also NaN and the infinities *)
| VStr (s : str)
| VList (items : list value)
| VDict (d : list (str * value)).

(** A [dict] keeps its keys in insertion order; assigning to a key that
    is already there replaces the value in place. *)
Fixpoint dict_set (d : list (str * value)) (k : str) (v : value)
  : list (str * value) :=
  match d with
  | [] => [(k, v)]
  | (k', v') :: d' =>
      if bool_decide (k' = k) then (k', v) :: d'
      else (k', v') :: dict_set d' k v
  end.

Fixpoint dict_lookup (d : list (str * value)) (k : str) : option value :=
  match d with
  | [] => None
  | (k', v') :: d' => if bool_decide (k' = k) then Some v' else dict_lookup d' k
  end.

(** [d.get(k, default)]. *)
Definition dict_get (d : list (str * value)) (k : str) (default : value)
  : value :=
  match dict_lookup d k with Some v => v | None => default end.

(** ** [json.loads] *)

(** The decoder of the standard library, for a [str] argument and the
    default options.  Two limits of the interpreter are left out: the
    recursion limit on deeply nested documents and the limit on the
    number of digits of an [int]. *)
Module Json.

(** Whitespace between tokens: space, tab, line feed, carriage return. *)
Definition is_ws (c : char) : bool :=
  (c =? 32) || (c =? 9) || (c =? 10) || (c =? 13).

Fixpoint skip_ws (s : str) : str :=
  match s with
  | c :: s' => if is_ws c then skip_ws s' else s
  | [] => []
  end.

Definition is_digit (c : char) : bool := (48 <=? c) && (c <=? 57).

Definition hex_digit (c : char) : option N :=
  if (48 <=? c) && (c <=? 57) then Some (c - 48)
  else if (97 <=? c) && (c <=? 102) then Some (c - 87)
  else if (65 <=? c) && (c <=? 70) then Some (c - 55)
  else None.

Definition hex4 (a b c d : char) : option N :=
  match hex_digit a, hex_digit b, hex_digit c, hex_digit d with
  | Some a, Some b, Some c, Some d => Some (((a * 16 + b) * 16 + c) * 16 + d)
  | _, _, _, _ => None
  end.

(** The one-character escapes. *)
Definition backslash (e : char) : option char :=
  if e =? 34 then Some 34
  else if e =? 92 then Some 92
  else if e =? 47 then Some 47
  else if e =? 98 then Some 8
  else if e =? 102 then Some 12
  else if e =? 110 then Some 10
  else if e =? 114 then Some 13
  else if e =? 116 then Some 9
  else None.

Definition push (c : char) (r : option (str * str)) : option (str * str) :=
  match r with
  | Some (x, rest) => Some (c :: x, rest)
  | None => None
  end.

(** The low half of a surrogate pair, when [s] starts with an escape
    [\uXXXX] in the low-surrogate range: its value and what follows. *)
Definition low_surrogate (s : str) : option (N * str) :=
  match s with
  | b :: s1 =>
      match s1 with
      | e :: s2 =>
          match s2 with
          | h1 :: s3 =>
              match s3 with
              | h2 :: s4 =>
                  match s4 with
                  | h3 :: s5 =>
                      match s5 with
                      | h4 :: s6 =>
                          if (b =? 92) && (e =? 117) then
                            match hex4 h1 h2 h3 h4 with
                            | Some lo =>
                                if (56320 <=? lo) && (lo <=? 57343)
                                then Some (lo, s6) else None
                            | None => None
                            end
                          else None
                      | [] => None
                      end
                  | [] => None
                  end
              | [] => None
              end
          | [] => None
          end
      | [] => None
      end
  | [] => None
  end.

(** A high surrogate directly followed by [\u] and four characters
    that are not hexadecimal digits is an error. *)
Definition bad_pair_escape (s : str) : bool :=
  match s with
  | b :: e :: h1 :: h2 :: h3 :: h4 :: _ =>
      (b =? 92) && (e =? 117)
      && match hex4 h1 h2 h3 h4 with Some _ => false | None => true end
  | _ => false
  end.

(** The body of a string, read after its opening quote: the decoded
    text and the input after the closing quote.  Control characters
    below 32 are refused (strict mode). *)
Fixpoint scanstring (fuel : nat) (s : str) : option (str * str) :=
  match fuel with
  | O => None
  | S fuel =>
      match s with
      | [] => None
      | c :: s1 =>
          if c =? 34 then Some ([], s1)
          else if c =? 92 then
            match s1 with
            | [] => None
            | e :: s2 =>
                if e =? 117 then
                  match s2 with
                  | h1 :: h2 :: h3 :: h4 :: s6 =>
                      match hex4 h1 h2 h3 h4 with
                      | None => None
                      | Some uni =>
                          if (55296 <=? uni) && (uni <=? 56319) then
                            if bad_pair_escape s6 then None
                            else
                              match low_surrogate s6 with
                              | Some (lo, s12) =>
                                  push (65536 + (N.lor (N.shiftl (uni - 55296) 10)
                                                       (lo - 56320)))
                                       (scanstring fuel s12)
                              | None => push uni (scanstring fuel s6)
                              end
                          else push uni (scanstring fuel s6)
                      end
                  | _ => None
                  end
                else
                  match backslash e with
                  | Some ch => push ch (scanstring fuel s2)
                  | None => None
                  end
            end
          else if c <? 32 then None
          else push c (scanstring fuel s1)
      end
  end.

(** The longest run of digits at the front of [s]. *)
Fixpoint digits (s : str) : str * str :=
  match s with
  | c :: s' =>
      if is_digit c then let '(d, r) := digits s' in (c :: d, r)
      else ([], s)
  | [] => ([], [])
  end.

Definition nat_of_digits (d : str) : Z :=
  fold_left (fun acc c => (acc * 10 + Z.of_N (c - 48))%Z) d 0%Z.

(** The integer part of a number: [0], or a non-zero digit followed by
    digits. *)
Definition int_part (s : str) : option (str * str) :=
  match s with
  | c :: s' =>
      if c =? 48 then Some ([c], s')
      else if is_digit c then let '(d, r) := digits s' in Some (c :: d, r)
      else None
  | [] => None
  end.

(** An optional fraction: a dot followed by at least one digit. *)
Definition frac_part (s : str) : str * str :=
  match s with
  | c :: s' =>
      if c =? 46 then
        match digits s' with
        | ([], _) => ([], s)
        | (d, r) => (c :: d, r)
        end
      else ([], s)
  | [] => ([], [])
  end.

(** An optional exponent: [e] or [E], an optional sign, at least one
    digit. *)
Definition exp_part (s : str) : str * str :=
  match s with
  | c :: s' =>
      if (c =? 101) || (c =? 69) then
        let '(sign, s'') :=
          match s' with
          | g :: t => if (g =? 45) || (g =? 43) then ([g], t) else ([], s')
          | [] => ([], s')
          end in
        match digits s'' with
        | ([], _) => ([], s)
        | (d, r) => (c :: sign ++ d, r)
        end
      else ([], s)
  | [] => ([], [])
  end.

(** A number at the front of [s]: an [int] when it has neither a
    fraction nor an exponent, a [float] otherwise. *)
Definition match_number (s : str) : option (value * str) :=
  let '(neg, s0) :=
    match s with
    | c :: s' => if c =? 45 then (true, s') else (false, s)
    | [] => (false, s)
    end in
  match int_part s0 with
  | None => None
  | Some (i, r1) =>
      let '(f, r2) := frac_part r1 in
      let '(e, r3) := exp_part r2 in
      match f, e with
      | [], [] =>
          Some (VInt (if neg then - nat_of_digits i else nat_of_digits i)%Z, r3)
      | _, _ =>
          Some (VFloat ((if neg then [45] else []) ++ i ++ f ++ e), r3)
      end
  end.

(** [s] starts with the word [w]: what follows it. *)
Fixpoint after_word (w s : str) : option str :=
  match w with
  | [] => Some s
  | c :: w' =>
      match s with
      | c' :: s' => if c' =? c then after_word w' s' else None
      | [] => None
      end
  end.

Definition literal (w : string) (v : value) (s : str) : option (value * str) :=
  match after_word (u w) s with
  | Some r => Some (v, r)
  | None => None
  end.

(** One value at the front of [s]; [array_items] reads the elements of
    an array from the start of an element on, [object_members] the
    members of an object from just after the opening quote of a key.
    Every call consumes input, so the length of the input bounds the
    depth. *)
Fixpoint scan_once (fuel : nat) (s : str) : option (value * str) :=
  match fuel with
  | O => None
  | S fuel =>
      match s with
      | [] => None
      | c :: s' =>
          if c =? 34 then
            match scanstring (S (length s')) s' with
            | Some (x, r) => Some (VStr x, r)
            | None => None
            end
          else if c =? 123 then
            match skip_ws s' with
            | c1 :: r1 =>
                if c1 =? 34 then
                  match object_members fuel r1 [] with
                  | Some (d, r) => Some (VDict d, r)
                  | None => None
                  end
                else if c1 =? 125 then Some (VDict [], r1)
                else None
            | [] => None
            end
          else if c =? 91 then
            match skip_ws s' with
            | c1 :: r1 =>
                if c1 =? 93 then Some (VList [], r1)
                else
                  match array_items fuel (c1 :: r1) [] with
                  | Some (l, r) => Some (VList l, r)
                  | None => None
                  end
            | [] => None
            end
          else if c =? 110 then literal "null" VNone s
          else if c =? 116 then literal "true" (VBool true) s
          else if c =? 102 then literal "false" (VBool false) s
          else
            match match_number s with
            | Some r => Some r
            | None =>
                if c =? 78 then literal "NaN" (VFloat (u "NaN")) s
                else if c =? 73 then literal "Infinity" (VFloat (u "Infinity")) s
                else if c =? 45 then literal "-Infinity" (VFloat (u "-Infinity")) s
                else None
            end
      end
  end
with array_items (fuel : nat) (s : str) (acc : list value)
  : option (list value * str) :=
  match fuel with
  | O => None
  | S fuel =>
      match scan_once fuel s with
      | None => None
      | Some (v, r) =>
          match skip_ws r with
          | c :: r' =>
              if c =? 93 then Some (acc ++ [v], r')
              else if c =? 44 then array_items fuel (skip_ws r') (acc ++ [v])
              else None
          | [] => None
          end
      end
  end
with object_members (fuel : nat) (s : str) (acc : list (str * value))
  : option (list (str * value) * str) :=
  match fuel with
  | O => None
  | S fuel =>
      match scanstring (S (length s)) s with
      | None => None
      | Some (k, r) =>
          match skip_ws r with
          | c :: r1 =>
              if c =? 58 then
                match scan_once fuel (skip_ws r1) with
                | None => None
                | Some (v, r2) =>
                    match skip_ws r2 with
                    | c2 :: r3 =>
                        if c2 =? 125 then Some (dict_set acc k v, r3)
                        else if c2 =? 44 then
                          match skip_ws r3 with
                          | c3 :: r4 =>
                              if c3 =? 34
                              then object_members fuel r4 (dict_set acc k v)
                              else None
                          | [] => None
                          end
                        else None
                    | [] => None
                    end
                end
              else None
          | [] => None
          end
      end
  end.

(** [json.loads(s)]: [None] stands for [json.JSONDecodeError].  A
    leading byte-order mark is refused, whitespace around the value is
    skipped, and anything after the value is an error.

    The decoder of the interpreter has two limits that [loads] has
    not: it raises [RecursionError] when arrays and objects are nested
    deeper than the interpreter's stack allows, and [ValueError] for
    an integer of more digits than [sys.get_int_max_str_digits()].
    [loads] is the decoder on the texts that stay within these limits;
    [within_limits] below is a bound under which they cannot be
    reached. *)
Definition loads (s : str) : option value :=
  match s with
  | 65279 :: _ => None
  | _ =>
      match scan_once (S (length s)) (skip_ws s) with
      | Some (v, r) =>
          match skip_ws r with
          | [] => Some v
          | _ :: _ => None
          end
      | None => None
      end
  end.

(** The number of opening brackets and braces of a text: the decoder
    never stands deeper in nested arrays and objects than this. *)
Definition openings (s : str) : nat :=
  length (List.filter (fun c => (c =? 91) || (c =? 123)) s).

(** The length of the longest run of digits of a text: no integer of
    the text has more digits.  [cur] is the run being read, [best] the
    longest one before it. *)
Fixpoint longest_run (cur best : nat) (s : str) : nat :=
  match s with
  | [] => Nat.max cur best
  | c :: s' =>
      if is_digit c then longest_run (S cur) best s'
      else longest_run 0 (Nat.max cur best) s'
  end.

Definition digit_run (s : str) : nat := longest_run 0 0 s.

(** A text that the decoder of the interpreter reads as [loads] does:
    at most 100 opening brackets, far below the depth a default
    interpreter allows (its recursion limit is 1000), and no run of
    more than 640 digits, the least value the limit on the digits of
    an integer can be set to (its default is 4300). *)
Definition within_limits (s : str) : bool :=
  (openings s <=? 100)%nat && (digit_run s <=? 640)%nat.

(** [json.dumps(s, ensure_ascii=False)] for a string: quotes around
    the text, with the quote, the backslash and the control characters
    below 32 escaped. *)
Definition hex_char (n : N) : char := if n <? 10 then 48 + n else 87 + n.

Definition escape_char (c : char) : str :=
  if c =? 34 then [92; 34]
  else if c =? 92 then [92; 92]
  else if c =? 10 then [92; 110]
  else if c =? 13 then [92; 114]
  else if c =? 9 then [92; 116]
  else if c =? 8 then [92; 98]
  else if c =? 12 then [92; 102]
  else if c <? 32 then [92; 117; 48; 48; hex_char (c / 16); hex_char (c mod 16)]
  else [c].

Definition dumps_str (s : str) : str :=
  [34] ++ concat (List.map escape_char s) ++ [34].

End Json.

(** ** Errors, files and the state of a run *)

Inductive exn : Type :=
| JSONDecodeError
| ValueError (msg : str)
| AttributeError
| TypeError
| IndexError
| FileNotFoundError
| CalledProcessError
| UnicodeEncodeError.

Record path : Type := Path { parent : str; name : str }.

#[global] Instance path_eq_dec : EqDecision path.
Proof. solve_decision. Defined.

#[global] Instance path_countable : Countable path :=
  inj_countable' (fun p => (parent p, name p)) (fun '(d, n) => Path d n)
                 (fun p => match p with Path _ _ => eq_refl end).

(** [str(z)] for an [int]. *)
Definition str_of_Z (z : Z) : str :=
  u (NilZero.string_of_int (Z.to_int z)).

Definition BATCH_SIZE : nat := 50.

(** Code that may raise but touches no state: an exception or a value. *)
Definition R (A : Type) : Type := (exn + A)%type.

Definition rbind {A B} (r : R A) (k : A -> R B) : R B :=
  match r with
  | inr a => k a
  | inl e => inl e
  end.

Notation "x <~ c1 ;; c2" := (rbind c1 (fun x => c2))
  (at level 100, c1 at next level, right associativity).

(** [sep.join(l)], for strings and for lists alike. *)
Fixpoint join {A} (sep : list A) (l : list (list A)) : list A :=
  match l with
  | [] => []
  | [x] => x
  | x :: l' => x ++ sep ++ join sep l'
  end.

(** [l[i]]. *)
Definition getitem {A} (l : list A) (i : nat) : R A :=
  match l !! i with
  | Some x => inr x
  | None => inl IndexError
  end.

(** ** [parse_srt_blocks] *)

(** One pass through the loop over the lines: [blocks] and [current]
    before and after. *)
Definition parse_step (acc : list (list str) * list str) (line : str)
  : list (list str) * list str :=
  let '(blocks, current) := acc in
  if bool_decide (Py.strip line = []) then
    match current with
    | [] => (blocks, current)
    | _ :: _ => (blocks ++ [current], [])
    end
  else (blocks, current ++ [line]).

Definition parse_srt_blocks (text : str) : list (list str) :=
  let lines := Py.splitlines text in
  let '(blocks, current) := fold_left parse_step lines ([], []) in
  match current with
  | [] => blocks
  | _ :: _ => blocks ++ [current]
  end.

(** One call of the agent: the prompt and what came back. *)
Definition event : Type := str * (exn + str).

(** The state of a run; [World] is whatever the agent depends on. *)
Record state (World : Type) : Type := State {
  fs : gmap path str;          (* the text files *)
  world : World;
  calls : list event           (* the agent calls made so far, in order *)
}.

Arguments State {World}.
Arguments fs {World}.
Arguments world {World}.
Arguments calls {World}.

(** The text of blocks separated by exactly one blank line, up to the
    end of the last text line. *)
Definition srt_body (blocks : list (list str)) : str :=
  join [LF] (join [[]] blocks).


(** A scripted agent for running the script on examples: the world is
    the list of the outcomes still to come; a call takes the first one
    and fails when none is left. *)
Module Mock.

Definition world : Type := list (exn + str).

Definition exec (prompt : str) (w : world) : (exn + str) * world :=
  match w with
  | [] => (inl CalledProcessError, [])
  | r :: w' => (r, w')
  end.

(** The examples print no [float], [list] or [dict]. *)
Definition repr (v : value) : str := [].

(** An agent that gives the same outcome to every call. *)
Definition const_exec (r : exn + str) (prompt : str) (w : unit)
  : (exn + str) * unit :=
  (r, w).

(** Two subtitle blocks, their text lines and a file holding them. *)
Definition hello : str := u "Hello".
Definition world_line : str := u "World".
Definition goodbye : str := u "Goodbye".

Definition blocks : list (list str) :=
  [[u "1"; u "00:00:01,000 --> 00:00:02,000"; hello; world_line];
   [u "2"; u "00:00:03,000 --> 00:00:04,000"; goodbye]].

Definition src : path := Path (u "d") (u "a.srt").
Definition dst : path := Path (u "d") (u "a.ru.srt").

(** Responses of the agent. *)
Definition not_json : str := u "not json".

Definition entry (index : string) (text : str) : str :=
  u "{" ++ [DQ] ++ u "id" ++ [DQ] ++ u ":" ++ u index ++ u "," ++ [DQ]
    ++ u "text" ++ [DQ] ++ u ":" ++ [DQ] ++ text ++ [DQ] ++ u "}".

Definition mir : str := [1052; 1080; 1088].
Definition proshchay : str := [1055; 1088; 1086; 1097; 1072; 1081].

Definition three_entries (a b c : str) : str :=
  u "[" ++ entry "0" a ++ u "," ++ entry "1" b ++ u "," ++ entry "2" c
    ++ u "]".

Definition one_entry (a : str) : str := u "[" ++ entry "0" a ++ u "]".

Definition mixed : str := u "[{}, 1]".

(** Three lines, the second one empty, and a script for them: three
    structured responses that are set aside, then the per-line
    translations. *)
Definition lines3 : list str := [hello; []; world_line].

Definition script_retry : world :=
  [inr not_json; inr (u "[]"); inr (u "{}"); inr (u " Privet ");
   inr (u "Mir")].

(** A run starts with no call made: with no file and the script of
    the agent, with no file and an agent without state, or with the
    example file. *)
Definition start (script : world) : state world := State ∅ script [].

Definition start_unit : state unit := State ∅ tt [].

Definition start_file : state unit :=
  State {[ src := srt_body blocks ]} tt [].

Definition failing : str -> unit -> (exn + str) * unit :=
  const_exec (inl CalledProcessError).

(** Four lines and an array of four scalars for them; a response whose
    brackets enclose nothing. *)
Definition lines4 : list str := [hello; world_line; goodbye; hello].

Definition scalars : str :=
  u "[" ++ [DQ] ++ u "a" ++ [DQ] ++ u ", null, 5, true]".

Definition reversed : str := u "] [".

(** The example file with its output file already there, and a state
    in which the output file has just been opened. *)
Definition done_file : state unit :=
  State (<[dst := u "done"]> {[ src := srt_body blocks ]}) tt [].

Definition opened : state unit := State {[ dst := [] ]} tt [].




(** A file of one block with one text line, and a response whose text
    holds the escape of a line feed. *)
Definition one_block_file : state unit :=
  State {[ src := join [LF] [u "1"; u "t"; hello] ++ [LF] ]} tt [].

Definition two_lined : str := one_entry (u "a" ++ [92; 110] ++ u "b").

End Mock.

(** The word [Привет], and a response that wraps the array holding it
    in prose. *)
Definition privet : str := [1055; 1088; 1080; 1074; 1077; 1090].

Definition embedded_array : str :=
  u "[{" ++ [DQ] ++ u "id" ++ [DQ] ++ u ":0," ++ [DQ] ++ u "text" ++ [DQ]
    ++ u ":" ++ [DQ] ++ privet ++ [DQ] ++ u "}]".

Definition example_response : str :=
  u "Here you go:" ++ [LF] ++ embedded_array ++ [LF] ++ u "Thanks!".

Section Translator.

(** The translation agent is an external process: [codex_exec prompt]
    runs it on the prompt and reads the file holding its last message,
    or fails.  [World] is whatever that process depends on. *)
Variable World : Type.
Variable codex_exec : str -> World -> (exn + str) * World.

(** [repr] of the interpreter for a [float], a [list] or a [dict]. *)
Variable py_repr : value -> str.

Local Abbreviation state := (state World).

(** Computations that read and change the state and may raise. *)
Definition M (A : Type) : Type := state -> (exn + A) * state.

Definition lift {A} (r : R A) : M A := fun st => (r, st).

Definition ret {A} (a : A) : M A := lift (inr a).

Definition raise {A} (e : exn) : M A := lift (inl e).

Definition bind {A B} (m : M A) (k : A -> M B) : M B :=
  fun st =>
    match m st with
    | (inr a, st') => k a st'
    | (inl e, st') => (inl e, st')
    end.

Notation "x <- c1 ;; c2" := (bind c1 (fun x => c2))
  (at level 100, c1 at next level, right associativity).
Notation "c1 ;;; c2" := (bind c1 (fun _ => c2))
  (at level 100, right associativity).

(** ** [call_codex] *)

Definition call_codex (prompt : str) : M str :=
  fun st =>
    let '(r, w) := codex_exec prompt (world st) in
    let st' := State (fs st) w (calls st ++ [(prompt, r)]) in
    match r with
    | inl e => (inl e, st')
    | inr out => (inr (Py.strip out), st')
    end.

(** ** [translate_lines] *)

(** [{"id": index, "text": line}] as [json.dumps] writes it. *)
Definition dumps_entry (index : nat) (line : str) : str :=
  u "{" ++ [DQ] ++ u "id" ++ [DQ] ++ u ": " ++ Py.str_of_nat index
    ++ u ", " ++ [DQ] ++ u "text" ++ [DQ] ++ u ": " ++ Json.dumps_str line
    ++ u "}".

Definition payload (lines : list str) : str :=
  u "[" ++ join (u ", ") (imap dumps_entry lines) ++ u "]".

Definition batch_prompt (lines : list str) : str :=
  u "Translate the following subtitle text entries from English to Russian."
    ++ [LF]
    ++ u "Return ONLY a JSON array of objects with fields "
    ++ [DQ] ++ u "id" ++ [DQ] ++ u " and " ++ [DQ] ++ u "text" ++ [DQ]
    ++ u "." ++ [LF]
    ++ u "Keep exactly " ++ Py.str_of_nat (length lines)
    ++ u " entries, same order, and the same ids." ++ [LF]
    ++ u "If a line is empty, return an empty string in "
    ++ [DQ] ++ u "text" ++ [DQ] ++ u "." ++ [LF]
    ++ u "Entries:" ++ [LF] ++ payload lines ++ [LF].

Definition line_prompt (line : str) : str :=
  u "Translate the following subtitle text line from English to Russian."
    ++ [LF]
    ++ u "Return ONLY the translated line with no extra text." ++ [LF]
    ++ u "Line:" ++ [LF] ++ line ++ [LF].

(** How one pass through the body of the retry loop ends. *)
Inductive ctl : Type :=
| Continue                       (* go on with the next attempt *)
| Break                          (* leave the loop *)
| Return (texts : list value).   (* return from [translate_lines] *)

(** [item.get("text", "")]: only a [dict] has [get]. *)
Definition get_text (item : value) : R value :=
  match item with
  | VDict d => inr (dict_get d (u "text") (VStr []))
  | _ => inl AttributeError
  end.

(** [[item.get("text", "") for item in translated]]. *)
Fixpoint get_texts (items : list value) : R (list value) :=
  match items with
  | [] => inr []
  | item :: rest =>
      t <~ get_text item ;;
      ts <~ get_texts rest ;;
      inr (t :: ts)
  end.

(** ["" if item is None else str(item)]. *)
Definition to_str (item : value) : value :=
  match item with
  | VNone => VStr []
  | VStr s => VStr s
  | VBool true => VStr (u "True")
  | VBool false => VStr (u "False")
  | VInt z => VStr (str_of_Z z)
  | _ => VStr (py_repr item)
  end.

(** The [try] / [except json.JSONDecodeError] of one attempt: the
    parsed response, or [None] where the source says [continue]. *)
Definition parse_response (raw : str) (attempt : nat) : R (option value) :=
  match Json.loads raw with
  | Some translated => inr (Some translated)
  | None =>
      let start := Py.find raw 91 in
      let end_ := Py.rfind raw 93 in
      if (start =? -1)%Z || (end_ =? -1)%Z then
        if (attempt =? 2)%nat then
          inl (ValueError (u "Model response is not JSON array: " ++ raw))
        else inr None
      else
        match Json.loads (Py.slice raw start (end_ + 1)%Z) with
        | Some translated => inr (Some translated)
        | None => inl JSONDecodeError
        end
  end.

(** The end of the loop body: [if attempt == 2: break]. *)
Definition after_attempt (attempt : nat) : ctl :=
  if (attempt =? 2)%nat then Break else Continue.

(** The texts of the elements: the [text] fields when the first
    element is a [dict], the string forms otherwise. *)
Definition texts_of (items : list value) : R (list value) :=
  match items with
  | VDict _ :: _ => get_texts items
  | _ => inr (List.map to_str items)
  end.

Definition check_response (lines : list str) (translated : value)
           (attempt : nat) : R ctl :=
  match translated with
  | VList items =>
      if (length items =? length lines)%nat then
        texts <~ texts_of items ;;
        if (length texts =? length lines)%nat then inr (Return texts)
        else inr (after_attempt attempt)
      else inr (after_attempt attempt)
  | _ => inr (after_attempt attempt)
  end.

(** The loop body after the agent has answered [raw]. *)
Definition attempt_body (lines : list str) (raw : str) (attempt : nat)
  : R ctl :=
  parsed <~ parse_response raw attempt ;;
  match parsed with
  | None => inr Continue
  | Some translated => check_response lines translated attempt
  end.

Definition structured_attempt (lines : list str) (attempt : nat) : M ctl :=
  raw <- call_codex (batch_prompt lines) ;;
  lift (attempt_body lines raw attempt).

(** [for attempt in range(3)]: [Some texts] when the body returned,
    [None] when the loop was left or ran out. *)
Fixpoint for_attempts (body : nat -> M ctl) (attempts : list nat)
  : M (option (list value)) :=
  match attempts with
  | [] => ret None
  | attempt :: rest =>
      c <- body attempt ;;
      match c with
      | Continue => for_attempts body rest
      | Break => ret None
      | Return texts => ret (Some texts)
      end
  end.

(** The per-line loop; [translated_lines] is the list built so far. *)
Fixpoint fallback_loop (lines : list str) (translated_lines : list value)
  : M (list value) :=
  match lines with
  | [] => ret translated_lines
  | line :: rest =>
      if bool_decide (line = []) then
        fallback_loop rest (translated_lines ++ [VStr []])
      else
        r <- call_codex (line_prompt line) ;;
        fallback_loop rest (translated_lines ++ [VStr (Py.strip r)])
  end.

Definition fallback (lines : list str) : M (list value) :=
  translated_lines <- fallback_loop lines [] ;;
  if negb (length translated_lines =? length lines)%nat then
    raise (ValueError (u "Translated output has unexpected length"))
  else ret translated_lines.

Definition translate_lines (lines : list str) : M (list value) :=
  match lines with
  | [] => ret []
  | _ :: _ =>
      r <- for_attempts (structured_attempt lines) [0; 1; 2]%nat ;;
      match r with
      | Some texts => ret texts
      | None => fallback lines
      end
  end.

(** ** [translate_file] *)

Definition read_text (p : path) : M str :=
  fun st =>
    match fs st !! p with
    | Some s => (inr (Py.universal_newlines s), st)
    | None => (inl FileNotFoundError, st)
    end.

(** [out_path.open("w")]: the file is created, or emptied. *)
Definition open_w (p : path) : M unit :=
  fun st => (inr tt, State (<[p := []]> (fs st)) (world st) (calls st)).

(** [out_file.write(s)] on a file opened with [encoding="utf-8"]: the
    text is encoded when it is written, so a text that holds a
    surrogate raises [UnicodeEncodeError] and nothing of it reaches
    the file. *)
Definition write (p : path) (s : str) : M unit :=
  fun st =>
    if Py.encodable s then
      (inr tt,
       State (<[p := default [] (fs st !! p) ++ s]> (fs st)) (world st)
             (calls st))
    else (inl UnicodeEncodeError, st).

(** [item + newline]: only a [str] can be added to a [str]. *)
Definition add_newline (item : value) : R str :=
  match item with
  | VStr s => inr (s ++ [LF])
  | _ => inl TypeError
  end.

(** The text lines and their number per block, as the loop over the
    batch collects them. *)
Definition collect_step (acc : list str * list nat) (block : list str)
  : list str * list nat :=
  let '(text_lines, line_counts) := acc in
  let lines := drop 2 block in
  (text_lines ++ lines, line_counts ++ [length lines]).

Definition collect (batch : list (list str)) : list str * list nat :=
  fold_left collect_step batch ([], []).

(** [for _ in range(count)]: the lines of one block, from [index] on;
    the index after the last line written. *)
Fixpoint write_texts (out : path) (translated_lines : list value)
         (count index : nat) : M nat :=
  match count with
  | O => ret index
  | S count =>
      item <- lift (getitem translated_lines index) ;;
      s <- lift (add_newline item) ;;
      write out s ;;;
      write_texts out translated_lines count (S index)
  end.

(** [for block, count in zip(batch, line_counts)]. *)
Fixpoint write_blocks (out : path) (pairs : list (list str * nat))
         (translated_lines : list value) (index : nat) : M nat :=
  match pairs with
  | [] => ret index
  | (block, count) :: rest =>
      number_line <- lift (getitem block 0) ;;
      time_line <- lift (if (1 <? length block)%nat then getitem block 1
                         else inr []) ;;
      write out (number_line ++ [LF]) ;;;
      write out (time_line ++ [LF]) ;;;
      index <- write_texts out translated_lines count index ;;
      write out [LF] ;;;
      write_blocks out rest translated_lines index
  end.

(** The body of the loop over the batches, for a translator [tl]. *)
Definition translate_batch (tl : list str -> M (list value)) (out : path)
           (batch : list (list str)) : M unit :=
  let '(text_lines, line_counts) := collect batch in
  translated_lines <- tl text_lines ;;
  write_blocks out (combine batch line_counts) translated_lines 0 ;;;
  ret tt.

Fixpoint for_batches (tl : list str -> M (list value)) (out : path)
         (blocks : list (list str)) (starts : list nat) : M unit :=
  match starts with
  | [] => ret tt
  | start :: rest =>
      translate_batch tl out
        (Py.slice blocks (Z.of_nat start) (Z.of_nat (start + BATCH_SIZE))) ;;;
      for_batches tl out blocks rest
  end.

(** [translate_file] with the translator as a parameter, so that the
    reassembly can be studied for any translation of the lines. *)
Definition translate_file_with (tl : list str -> M (list value))
           (p out_path : path) : M unit :=
  text <- read_text p ;;
  let blocks := parse_srt_blocks text in
  open_w out_path ;;;
  for_batches tl out_path blocks
              (Py.range_step 0 (length blocks) BATCH_SIZE).

Definition translate_file (p out_path : path) : M unit :=
  translate_file_with translate_lines p out_path.

(** ** [main] *)

Record report : Type := Report {
  found : nat;
  translated : nat;
  skipped : nat;
  errors : list (path * exn)     (* the file and what was raised *)
}.

(** [path.with_name(path.name[:-4] + ".ru.srt")]. *)
Definition out_path_of (p : path) : path :=
  Path (parent p) (take (length (name p) - 4) (name p) ++ u ".ru.srt").

Definition unlink (p : path) (st : state) : state :=
  State (delete p (fs st)) (world st) (calls st).

(** One pass through the loop over the discovered files. *)
Definition main_step (acc : report * state) (p : path) : report * state :=
  let '(r, st) := acc in
  if Py.endswith (name p) (u ".ru.srt") || Py.endswith (name p) (u "_ru.srt")
  then (r, st)
  else
    let r := Report (S (found r)) (translated r) (skipped r) (errors r) in
    let out_path := out_path_of p in
    match fs st !! out_path with
    | Some _ =>
        (Report (found r) (translated r) (S (skipped r)) (errors r), st)
    | None =>
        match translate_file p out_path st with
        | (inr _, st') =>
            (Report (found r) (S (translated r)) (skipped r) (errors r), st')
        | (inl exc, st') =>
            (Report (found r) (translated r) (skipped r)
                    (errors r ++ [(p, exc)]),
             match fs st' !! out_path with
             | Some _ => unlink out_path st'
             | None => st'
             end)
        end
    end.

Definition main_loop (srt_files : list path) (acc : report * state)
  : report * state :=
  fold_left main_step srt_files acc.

(** [main]: the exit status, with the report and the final state. *)
Definition main (srt_files : list path) (st : state)
  : Z * report * state :=
  let '(r, st') := main_loop srt_files (Report 0 0 0 [], st) in
  (match errors r with [] => 0%Z | _ :: _ => 1%Z end, r, st').

(** ** Notions used by the statements *)

(** The state after the agent answered [evs] more calls and left the
    world as [w]. *)
Definition logged (st : state) (w : World) (evs : list event) : state :=
  State (fs st) w (calls st ++ evs).

(** The agent is asked the same prompt again and again and answers
    [outs], in this order: the world it leaves. *)
Fixpoint answers (prompt : str) (w : World) (outs : list str)
  : option World :=
  match outs with
  | [] => Some w
  | out :: rest =>
      match codex_exec prompt w with
      | (inr o, w1) =>
          if bool_decide (o = out) then answers prompt w1 rest else None
      | (inl _, _) => None
      end
  end.

(** The events of these calls. *)
Definition asked (prompt : str) (outs : list str) : list event :=
  List.map (fun out => (prompt, inr out)) outs.

(** A response that is no JSON document and has no opening or no
    closing bracket to extract an array from. *)
Definition no_array (raw : str) : bool :=
  match Json.loads raw with
  | Some _ => false
  | None => (Py.find raw 91 =? -1)%Z || (Py.rfind raw 93 =? -1)%Z
  end.

(** The JSON value read from a response: the document it is, or else
    the document between its first opening and its last closing
    bracket. *)
Definition reads (raw : str) : option value :=
  match Json.loads raw with
  | Some v => Some v
  | None =>
      if no_array raw then None
      else Json.loads (Py.slice raw (Py.find raw 91) (Py.rfind raw 93 + 1)%Z)
  end.

(** Wrong type or wrong length: not an array, or not as many elements
    as lines. *)
Definition wrong_shape (lines : list str) (v : value) : bool :=
  match v with
  | VList items => negb (length items =? length lines)%nat
  | _ => true
  end.

(** A response that is read but fails validation. *)
Definition rejected (lines : list str) (raw : str) : bool :=
  match reads raw with
  | Some v => wrong_shape lines v
  | None => false
  end.

(** A response that is set aside on the first two attempts. *)
Definition discarded (lines : list str) (raw : str) : bool :=
  no_array raw || rejected lines raw.

Definition is_dict (v : value) : bool :=
  match v with VDict _ => true | _ => false end.

(** The [text] field of an entry, the empty string when it has none. *)
Definition text_field (d : list (str * value)) : value :=
  dict_get d (u "text") (VStr []).

(** The calls of the per-line mode, given what it returned: one call
    per non-empty line, in order, up to the end or to the call that
    failed. *)
Definition fallback_calls (lines : list str) (r : exn + list value)
           (new : list event) : Prop :=
  match r with
  | inr res =>
      List.map fst new = List.map line_prompt (filter (fun l => l <> []) lines)
      /\ Forall (fun ev => exists out, snd ev = inr out) new
      /\ length res = length lines
  | inl e =>
      exists pre p,
        new = pre ++ [(p, inl e)]
        /\ List.map fst new
             `prefix_of` List.map line_prompt (filter (fun l => l <> []) lines)
  end.

(** A trace in which only the last call may have failed, and then
    with the error that is the result. *)
Definition fail_fast {A} (r : exn + A) (new : list event) : Prop :=
  forall pre p e post,
    new = pre ++ (p, inl e) :: post -> post = [] /\ r = inl e.

(** The state after [s] has been written at the end of the file [p]. *)
Definition appended (st : state) (p : path) (s : str) : state :=
  State (<[p := default [] (fs st !! p) ++ s]> (fs st)) (world st) (calls st).

(** Lines as they stand in a file: each one followed by a line feed. *)
Definition render (ls : list str) : str :=
  concat (List.map (fun l => l ++ [LF]) ls).

(** The lines written for a block: its first line, its second line or
    an empty line when it has none, and the translated lines. *)
Definition output_lines (block : list str) (texts : list str) : list str :=
  default [] (block !! 0%nat) :: default [] (block !! 1%nat) :: texts.

(** A line that holds no line boundary: written with a line feed
    after it, it is one line of the file. *)
Definition plain (l : str) : bool :=
  forallb (fun c => negb (Py.islinebreak c)) l.


(** A line of a well-formed block: not blank, and free of line
    boundaries. *)
Definition line_ok (l : str) : bool :=
  negb (bool_decide (Py.strip l = []))
  && forallb (fun c => negb (Py.islinebreak c)) l.


(** The identity translation: every line is its own translation. *)
Definition identity (lines : list str) : M (list value) :=
  ret (List.map VStr lines).

(** What [parse_srt_blocks] returns from the [blocks] and the
    [current] block its loop ends with. *)
Definition finish (acc : list (list str) * list str) : list (list str) :=
  match snd acc with
  | [] => fst acc
  | _ :: _ => fst acc ++ [snd acc]
  end.

(** Blocks as [translate_file] writes them: every block followed by a
    blank line. *)
Definition serialized (blocks : list (list str)) : str :=
  concat (List.map (fun block => render block ++ [LF]) blocks).

(** The loop of [main] stands at [acc] and reaches the file [p]: the
    file is neither passed over nor skipped, and translating it raises
    [exc]. *)
Definition errors_at (acc : report * state) (p : path) (exc : exn) : Prop :=
  Py.endswith (name p) (u ".ru.srt") || Py.endswith (name p) (u "_ru.srt")
  = false
  /\ fs (snd acc) !! out_path_of p = None
  /\ fst (translate_file p (out_path_of p) (snd acc)) = inl exc.

(** The exit status of [main]. *)
Definition exit_status (srt_files : list path) (st : state) : Z :=
  fst (fst (main srt_files st)).

(** [m] stops at the first call that fails, with its error. *)
Definition traced {A} (m : M A) : Prop :=
  forall st r st',
    m st = (r, st') ->
    exists new, calls st' = calls st ++ new /\ fail_fast r new.

(** A block as the parser makes them: at least one line, and lines that
    are not blank and hold no line boundary. *)
Definition block_lines_ok (block : list str) : bool :=
  match block with
  | [] => false
  | _ :: _ => forallb line_ok block
  end.

(** The errors [translate_lines] raises by itself, apart from those of
    the agent. *)
Definition own_error (e : exn) : Prop :=
  (exists raw, e = ValueError (u "Model response is not JSON array: " ++ raw))
  \/ e = JSONDecodeError
  \/ e = AttributeError.

(** [e] is the error of the last call made between [st] and [st']. *)
Definition last_call_failed (st st' : state) (e : exn) : Prop :=
  exists pre p, calls st' = calls st ++ pre ++ [(p, inl e)].

Definition hd_is_dict (items : list value) : bool :=
  match items with
  | item :: _ => is_dict item
  | [] => false
  end.

(** What reading [translated_lines[i]], adding the line feed to it
    and writing it raises: [IndexError] past the end, [TypeError] for
    an item that is no string, [UnicodeEncodeError] for a string that
    holds a surrogate, nothing for any other string. *)
Definition bad_item (translated_lines : list value) (i : nat) : option exn :=
  match translated_lines !! i with
  | None => Some IndexError
  | Some (VStr s) => if Py.encodable s then None else Some UnicodeEncodeError
  | Some _ => Some TypeError
  end.

(** [m] changes no file but [out]. *)
Definition keeps_others (out : path) {A} (m : M A) : Prop :=
  forall st r st',
    m st = (r, st') -> forall q, q <> out -> fs st' !! q = fs st !! q.

(** A file that [main] passes over because of its name. *)
Definition passed_over (p : path) : bool :=
  Py.endswith (name p) (u ".ru.srt") || Py.endswith (name p) (u "_ru.srt").

(** The output file of [p] is there. *)
Definition has_output (st : state) (p : path) : bool :=
  match fs st !! out_path_of p with
  | Some _ => true
  | None => false
  end.

(** The blocks of a batch with their text lines replaced, block after
    block, by as many lines taken from [texts]. *)
Fixpoint refold (batch : list (list str)) (texts : list str)
  : list (list str) :=
  match batch with
  | [] => []
  | block :: rest =>
      output_lines block (take (length (drop 2 block)) texts)
      :: refold rest (drop (length (drop 2 block)) texts)
  end.

(** The characters of a decimal number. *)
Fixpoint digits_of (d : Decimal.uint) : str :=
  match d with
  | Decimal.Nil => []
  | Decimal.D0 d => 48 :: digits_of d
  | Decimal.D1 d => 49 :: digits_of d
  | Decimal.D2 d => 50 :: digits_of d
  | Decimal.D3 d => 51 :: digits_of d
  | Decimal.D4 d => 52 :: digits_of d
  | Decimal.D5 d => 53 :: digits_of d
  | Decimal.D6 d => 54 :: digits_of d
  | Decimal.D7 d => 55 :: digits_of d
  | Decimal.D8 d => 56 :: digits_of d
  | Decimal.D9 d => 57 :: digits_of d
  end.

(** The entry [{"id": index, "text": line}] as a value. *)
Definition entry_value (index : nat) (line : str) : value :=
  VDict [(u "id", VInt (Z.of_nat index)); (u "text", VStr line)].


(** A call of the agent whose response, if there is one, stays within
    the limits of the decoder. *)
Definition in_limits (ev : event) : bool :=
  match snd ev with
  | inr out => Json.within_limits out
  | inl _ => true
  end.

(** ** Reasoning about runs *)

Lemma bind_inr {A B} (m : M A) (k : A -> M B) st a st' :
  m st = (inr a, st') -> bind m k st = k a st'.
Proof. intros H. unfold bind. now rewrite H. Qed.

Lemma bind_inl {A B} (m : M A) (k : A -> M B) st e st' :
  m st = (inl e, st') -> bind m k st = (inl e, st').
Proof. intros H. unfold bind. now rewrite H. Qed.

Lemma call_codex_inr prompt st out w :
  codex_exec prompt (world st) = (inr out, w) ->
  call_codex prompt st = (inr (Py.strip out), logged st w [(prompt, inr out)]).
Proof. intros H. unfold call_codex. now rewrite H. Qed.

Lemma call_codex_inl prompt st e w :
  codex_exec prompt (world st) = (inl e, w) ->
  call_codex prompt st = (inl e, logged st w [(prompt, inl e)]).
Proof. intros H. unfold call_codex. now rewrite H. Qed.

Lemma logged_logged st w1 evs1 w2 evs2 :
  logged (logged st w1 evs1) w2 evs2 = logged st w2 (evs1 ++ evs2).
Proof. unfold logged. simpl. now rewrite <- app_assoc. Qed.

(** The per-line loop, call by call. *)
Lemma fallback_loop_spec lines :
  forall acc st r st',
    fallback_loop lines acc st = (r, st') ->
    exists new,
      st' = logged st (world st') new
      /\ match r with
         | inr res =>
             List.map fst new
             = List.map line_prompt (filter (fun l => l <> []) lines)
             /\ Forall (fun ev => exists out, snd ev = inr out) new
             /\ exists outs,
                 res = acc ++ outs /\ length outs = length lines
                 /\ forall i, lines !! i = Some [] -> outs !! i = Some (VStr [])
         | inl e =>
             exists pre p,
               new = pre ++ [(p, inl e)]
               /\ List.map fst new
                    `prefix_of`
                    List.map line_prompt (filter (fun l => l <> []) lines)
         end.
Proof.
  induction lines as [|line rest IH]; intros acc st r st' Hrun.
  - simpl in Hrun. inversion Hrun; subst. exists []. split.
    + destruct st'; unfold logged; simpl. now rewrite app_nil_r.
    + repeat split; [constructor|]. exists []. rewrite app_nil_r.
      repeat split. intros i Hi. now rewrite lookup_nil in Hi.
  - simpl in Hrun. case_bool_decide as Hline.
    + subst line. apply IH in Hrun as (new & Hst & Hr). exists new.
      split; [exact Hst|]. rewrite filter_cons_False by tauto.
      destruct r as [e|res]; [exact Hr|].
      destruct Hr as (Hp & Hok & outs & -> & Hlen & Hblank).
      repeat split; [exact Hp|exact Hok|]. exists (VStr [] :: outs).
      rewrite <- app_assoc. simpl. repeat split; [now rewrite Hlen|].
      intros [|i] Hi; [reflexivity|]. simpl in *. now apply Hblank.
    + rewrite filter_cons_True by exact Hline.
      destruct (codex_exec (line_prompt line) (world st)) as [[e|out] w] eqn:Hex.
      * rewrite (bind_inl _ _ _ _ _ (call_codex_inl _ _ _ _ Hex)) in Hrun.
        inversion Hrun; subst. exists [(line_prompt line, inl e)].
        split; [reflexivity|]. exists [], (line_prompt line).
        split; [reflexivity|]. simpl. now apply prefix_cons, prefix_nil.
      * rewrite (bind_inr _ _ _ _ _ (call_codex_inr _ _ _ _ Hex)) in Hrun.
        apply IH in Hrun as (new & Hst & Hr).
        exists ((line_prompt line, inr out) :: new). split.
        { rewrite Hst. now rewrite logged_logged. }
        destruct r as [e|res].
        -- destruct Hr as (pre & p & -> & Hpre).
           exists ((line_prompt line, inr out) :: pre), p.
           split; [reflexivity|]. simpl. now apply prefix_cons.
        -- destruct Hr as (Hp & Hok & outs & -> & Hlen & Hblank).
           repeat split.
           ++ simpl. now rewrite Hp.
           ++ constructor; [now exists out|exact Hok].
           ++ exists (VStr (Py.strip (Py.strip out)) :: outs).
              rewrite <- app_assoc. simpl. repeat split; [now rewrite Hlen|].
              intros [|i] Hi; [simpl in Hi; congruence|].
              simpl in *. now apply Hblank.
Qed.

Lemma logged_nil st : logged st (world st) [] = st.
Proof. destruct st. unfold logged. simpl. now rewrite app_nil_r. Qed.

(** *** One structured attempt *)

Lemma reads_parse raw v attempt :
  reads raw = Some v -> parse_response raw attempt = inr (Some v).
Proof.
  unfold reads, no_array, parse_response.
  destruct (Json.loads raw); [congruence|].
  destruct (_ || _); [discriminate|]. now intros ->.
Qed.

Lemma no_array_parse raw attempt :
  no_array raw = true ->
  parse_response raw attempt
  = if (attempt =? 2)%nat
    then inl (ValueError (u "Model response is not JSON array: " ++ raw))
    else inr None.
Proof.
  unfold no_array, parse_response.
  destruct (Json.loads raw); [discriminate|]. now intros ->.
Qed.

Lemma wrong_shape_check lines v attempt :
  wrong_shape lines v = true ->
  check_response lines v attempt = inr (after_attempt attempt).
Proof.
  destruct v; simpl; try reflexivity.
  destruct (_ =? _)%nat; [discriminate|reflexivity].
Qed.

Lemma rejected_body lines raw attempt :
  rejected lines raw = true ->
  attempt_body lines raw attempt = inr (after_attempt attempt).
Proof.
  unfold rejected, attempt_body. destruct (reads raw) as [v|] eqn:Hv;
    [|discriminate].
  intros Hw. rewrite (reads_parse _ _ _ Hv). simpl.
  now apply wrong_shape_check.
Qed.

Lemma get_texts_length items texts :
  get_texts items = inr texts -> length texts = length items.
Proof.
  revert texts. induction items as [|item rest IH]; intros texts; simpl.
  - now intros [= <-].
  - destruct (get_text item); simpl; [discriminate|].
    destruct (get_texts rest); simpl; [discriminate|].
    intros [= <-]. simpl. now rewrite (IH _ eq_refl).
Qed.

Lemma texts_of_length items texts :
  texts_of items = inr texts -> length texts = length items.
Proof.
  unfold texts_of. destruct items as [|[] rest].
  all: try (intros H; injection H as <-; simpl;
            now rewrite ?List.length_map).
  apply get_texts_length.
Qed.

Lemma accepted_body lines raw items texts attempt :
  reads raw = Some (VList items) ->
  length items = length lines ->
  texts_of items = inr texts ->
  attempt_body lines raw attempt = inr (Return texts).
Proof.
  intros Hv Hlen Ht. unfold attempt_body.
  rewrite (reads_parse _ _ _ Hv). simpl.
  rewrite Hlen, Nat.eqb_refl, Ht. simpl.
  now rewrite (texts_of_length _ _ Ht), Hlen, Nat.eqb_refl.
Qed.

Lemma raising_body lines raw items e attempt :
  reads raw = Some (VList items) ->
  length items = length lines ->
  texts_of items = inl e ->
  attempt_body lines raw attempt = inl e.
Proof.
  intros Hv Hlen Ht. unfold attempt_body.
  rewrite (reads_parse _ _ _ Hv). simpl.
  now rewrite Hlen, Nat.eqb_refl, Ht.
Qed.

Lemma body_return_length lines raw attempt texts :
  attempt_body lines raw attempt = inr (Return texts) ->
  length texts = length lines.
Proof.
  unfold attempt_body. destruct (parse_response raw attempt) as [e|[v|]];
    simpl; try discriminate.
  destruct v; simpl; unfold after_attempt;
    try (destruct (attempt =? 2)%nat; discriminate).
  destruct (length items =? length lines)%nat eqn:Hlen;
    [|destruct (attempt =? 2)%nat; discriminate].
  destruct (texts_of items) as [e|ts]; simpl; [discriminate|].
  destruct (length ts =? length lines)%nat eqn:Hts;
    [|destruct (attempt =? 2)%nat; discriminate].
  intros [= <-]. now apply Nat.eqb_eq.
Qed.

Lemma discarded_continue lines raw attempt :
  (attempt < 2)%nat ->
  discarded lines raw = true ->
  attempt_body lines raw attempt = inr Continue.
Proof.
  intros Hk Hd. assert (Hk2 : (attempt =? 2)%nat = false)
    by (apply Nat.eqb_neq; lia).
  apply orb_true_iff in Hd as [Hn|Hr].
  - unfold attempt_body. rewrite (no_array_parse _ _ Hn), Hk2. reflexivity.
  - rewrite (rejected_body _ _ _ Hr). unfold after_attempt. now rewrite Hk2.
Qed.

Lemma structured_attempt_inr lines attempt st out w :
  codex_exec (batch_prompt lines) (world st) = (inr out, w) ->
  structured_attempt lines attempt st
  = (attempt_body lines (Py.strip out) attempt,
     logged st w [(batch_prompt lines, inr out)]).
Proof.
  intros Hex. unfold structured_attempt.
  now rewrite (bind_inr _ _ _ _ _ (call_codex_inr _ _ _ _ Hex)).
Qed.

Lemma structured_attempt_inl lines attempt st e w :
  codex_exec (batch_prompt lines) (world st) = (inl e, w) ->
  structured_attempt lines attempt st
  = (inl e, logged st w [(batch_prompt lines, inl e)]).
Proof.
  intros Hex. unfold structured_attempt.
  now rewrite (bind_inl _ _ _ _ _ (call_codex_inl _ _ _ _ Hex)).
Qed.

(** *** The retry loop *)

Lemma answers_cons prompt w out outs w' :
  answers prompt w (out :: outs) = Some w' ->
  exists w1, codex_exec prompt w = (inr out, w1)
             /\ answers prompt w1 outs = Some w'.
Proof.
  simpl. destruct (codex_exec prompt w) as [[e|o] w1]; [discriminate|].
  case_bool_decide; [subst o|discriminate]. intros H. now exists w1.
Qed.

Lemma answers_app prompt outs1 : forall w outs2 w',
  answers prompt w (outs1 ++ outs2) = Some w' ->
  exists w1, answers prompt w outs1 = Some w1
             /\ answers prompt w1 outs2 = Some w'.
Proof.
  induction outs1 as [|out outs1 IH]; intros w outs2 w' H.
  - now exists w.
  - apply answers_cons in H as (w1 & Hex & H).
    apply IH in H as (w2 & H1 & H2). exists w2. split; [|exact H2].
    simpl. rewrite Hex. now rewrite bool_decide_eq_true_2.
Qed.

Lemma for_attempts_continue lines outs : forall ks rest st w',
  answers (batch_prompt lines) (world st) outs = Some w' ->
  Forall2 (fun out k => attempt_body lines (Py.strip out) k = inr Continue)
          outs ks ->
  for_attempts (structured_attempt lines) (ks ++ rest) st
  = for_attempts (structured_attempt lines) rest
                 (logged st w' (asked (batch_prompt lines) outs)).
Proof.
  induction outs as [|out outs IH]; intros ks rest st w' Ha Hk.
  - apply Forall2_nil_inv_l in Hk as ->. simpl in Ha. injection Ha as <-.
    now rewrite logged_nil.
  - apply Forall2_cons_inv_l in Hk as (k & ks' & Hbody & Hk & ->).
    apply answers_cons in Ha as (w1 & Hex & Ha). simpl.
    pose proof (structured_attempt_inr _ k _ _ _ Hex) as Hs.
    rewrite Hbody in Hs. rewrite (bind_inr _ _ _ _ _ Hs).
    rewrite (IH ks' rest (logged st w1 [(batch_prompt lines, inr out)]) w' Ha Hk).
    now rewrite logged_logged.
Qed.

(** After up to two discarded responses the loop stands at the next
    attempt. *)
Lemma for_attempts_discarded lines pre st w' :
  (length pre < 3)%nat ->
  answers (batch_prompt lines) (world st) pre = Some w' ->
  Forall (fun out => discarded lines (Py.strip out) = true) pre ->
  for_attempts (structured_attempt lines) [0; 1; 2]%nat st
  = for_attempts (structured_attempt lines)
                 (seq (length pre) (3 - length pre))
                 (logged st w' (asked (batch_prompt lines) pre)).
Proof.
  intros Hlen Ha Hd.
  assert (Hk : Forall2
                 (fun out k => attempt_body lines (Py.strip out) k = inr Continue)
                 pre (seq 0 (length pre))).
  { destruct pre as [|a [|b [|c pre]]]; simpl in *; try lia.
    - constructor.
    - inversion Hd; subst. repeat constructor.
      now apply discarded_continue; [lia|].
    - inversion Hd as [|? ? Ha' Hd']; subst. inversion Hd'; subst.
      repeat constructor; now apply discarded_continue; [lia|]. }
  rewrite <- (for_attempts_continue lines pre _ _ st w' Ha Hk).
  f_equal. destruct pre as [|a [|b [|c pre]]]; simpl in *; try lia;
    reflexivity.
Qed.

(** *** The per-line mode *)

Lemma fallback_spec lines st r st' :
  fallback lines st = (r, st') ->
  exists new,
    st' = logged st (world st') new
    /\ fallback_calls lines r new
    /\ forall res, r = inr res ->
         forall i, lines !! i = Some [] -> res !! i = Some (VStr []).
Proof.
  unfold fallback, bind.
  destruct (fallback_loop lines [] st) as [[e|res] st1] eqn:Hloop;
    apply fallback_loop_spec in Hloop as (new & Hst & Hr).
  - intros [= <- <-]. exists new. repeat split; [exact Hst|exact Hr|].
    discriminate.
  - destruct Hr as (Hp & Hok & outs & Hres & Hlen & Hblank).
    simpl in Hres. subst res. rewrite Hlen, Nat.eqb_refl. simpl.
    intros [= <- <-]. exists new. repeat split; try assumption.
    intros res [= <-]. exact Hblank.
Qed.

(** *** [translate_lines] as a whole *)

Lemma for_attempts_length lines ks : forall st texts st',
  for_attempts (structured_attempt lines) ks st = (inr (Some texts), st') ->
  length texts = length lines.
Proof.
  induction ks as [|k ks IH]; intros st texts st'; simpl.
  - discriminate.
  - unfold bind at 1, structured_attempt, bind, call_codex, lift.
    destruct (codex_exec (batch_prompt lines) (world st)) as [[e|out] w];
      [discriminate|].
    destruct (attempt_body lines (Py.strip out) k) as [e|[| |ts]] eqn:Hbody;
      try discriminate.
    + apply IH.
    + intros [= <- <-]. now apply body_return_length in Hbody.
Qed.

Lemma translate_lines_length lines st res st' :
  translate_lines lines st = (inr res, st') -> length res = length lines.
Proof.
  destruct lines as [|line rest]; unfold translate_lines.
  - now intros [= <- <-].
  - unfold bind at 1.
    destruct (for_attempts (structured_attempt (line :: rest))
                           [0; 1; 2]%nat st)
      as [[e|[texts|]] st1] eqn:Hfor;
      [discriminate| |].
    + intros [= <- <-]. now apply for_attempts_length in Hfor.
    + intros Hfb. apply fallback_spec in Hfb as (new & _ & Hc & _).
      now destruct Hc as (_ & _ & Hlen).
Qed.

(** The run up to the attempt that follows the discarded responses
    [pre], when the agent answers [out] there. *)
Lemma translate_lines_at lines pre out st w :
  lines <> [] ->
  (length pre < 3)%nat ->
  answers (batch_prompt lines) (world st) (pre ++ [out]) = Some w ->
  Forall (fun o => discarded lines (Py.strip o) = true) pre ->
  forall st2, st2 = logged st w (asked (batch_prompt lines) (pre ++ [out])) ->
  translate_lines lines st
  = match attempt_body lines (Py.strip out) (length pre) with
    | inl e => (inl e, st2)
    | inr (Return texts) => (inr texts, st2)
    | inr Break => fallback lines st2
    | inr Continue =>
        bind (for_attempts (structured_attempt lines)
                           (seq (S (length pre)) (2 - length pre)))
             (fun r => match r with
                       | Some texts => ret texts
                       | None => fallback lines
                       end) st2
    end.
Proof.
  intros Hne Hlen Ha Hd st2 ->.
  apply answers_app in Ha as (w1 & Hpre & Hout).
  apply answers_cons in Hout as (w2 & Hex & Hnil). simpl in Hnil.
  injection Hnil as <-.
  destruct lines as [|line rest]; [congruence|].
  unfold translate_lines, bind at 1.
  rewrite (for_attempts_discarded _ pre st w1 Hlen Hpre Hd).
  replace (3 - length pre)%nat with (S (2 - length pre)) by lia.
  cbn [seq for_attempts]. unfold bind at 1.
  rewrite (structured_attempt_inr _ _ (logged st w1 _) _ _ Hex), logged_logged.
  unfold asked. rewrite List.map_app. simpl.
  destruct (attempt_body _ _ _) as [e|[| |texts]]; try reflexivity.
Qed.

Lemma get_texts_dicts ds :
  get_texts (List.map VDict ds) = inr (List.map text_field ds).
Proof.
  induction ds as [|d ds IH]; simpl; [reflexivity|]. now rewrite IH.
Qed.

Lemma texts_of_dicts ds :
  texts_of (List.map VDict ds) = inr (List.map text_field ds).
Proof. destruct ds; [reflexivity|]. apply (get_texts_dicts (_ :: _)). Qed.

Lemma get_texts_not_dict items :
  Exists (fun item => is_dict item = false) items ->
  get_texts items = inl AttributeError.
Proof.
  induction items as [|item rest IH]; intros Hex.
  - inversion Hex.
  - simpl. destruct item; try reflexivity. simpl.
    apply Exists_cons in Hex as [Hhd|Htl]; [discriminate|].
    now rewrite (IH Htl).
Qed.

(** *** Traces *)

Lemma traced_lift {A} (r : R A) : traced (lift r).
Proof.
  intros st r' st' [= <- <-]. exists []. split; [now rewrite app_nil_r|].
  intros pre p e post H. now destruct pre.
Qed.

Lemma traced_call prompt : traced (call_codex prompt).
Proof.
  intros st r st'. unfold call_codex.
  destruct (codex_exec prompt (world st)) as [[e|out] w];
    intros [= <- <-]; eexists; (split; [reflexivity|]);
    intros pre p e' post H; destruct pre as [|? [|? ?]]; simpl in H;
    inversion H; subst; auto.
Qed.

Lemma traced_bind {A B} (m : M A) (k : A -> M B) :
  traced m -> (forall a, traced (k a)) -> traced (bind m k).
Proof.
  intros Hm Hk st r st'. unfold bind.
  destruct (m st) as [[e|a] st1] eqn:Hrun; apply Hm in Hrun as (new1 & Hc1 & Hf1).
  - intros [= <- <-]. exists new1. split; [exact Hc1|].
    intros pre p e' post H. destruct (Hf1 pre p e' post H) as [-> [= ->]].
    now split.
  - intros Hrun2. apply Hk in Hrun2 as (new2 & Hc2 & Hf2).
    exists (new1 ++ new2). split; [now rewrite Hc2, Hc1, app_assoc|].
    intros pre p e post Heq. apply app_eq_app in Heq as [l [[H1 H2]|[H1 H2]]].
    + destruct l as [|x l].
      * simpl in H2. apply (Hf2 [] p e post). now rewrite <- H2.
      * simpl in H2. injection H2 as Hx Hpost. subst x.
        destruct (Hf1 pre p e l H1) as [_ Habs]. discriminate.
    + apply (Hf2 l p e post). exact H2.
Qed.

Lemma traced_for_attempts lines ks :
  traced (for_attempts (structured_attempt lines) ks).
Proof.
  induction ks as [|k ks IH]; simpl.
  - apply traced_lift.
  - apply traced_bind.
    + apply traced_bind; [apply traced_call|]. intros; apply traced_lift.
    + intros [| |texts]; [exact IH|apply traced_lift|apply traced_lift].
Qed.

Lemma traced_fallback_loop lines : forall acc, traced (fallback_loop lines acc).
Proof.
  induction lines as [|line rest IH]; intros acc; simpl.
  - apply traced_lift.
  - case_bool_decide; [apply IH|].
    apply traced_bind; [apply traced_call|]. intros; apply IH.
Qed.

Lemma traced_translate_lines lines : traced (translate_lines lines).
Proof.
  destruct lines as [|line rest]; unfold translate_lines;
    [apply traced_lift|].
  apply traced_bind; [apply traced_for_attempts|].
  intros [texts|]; [apply traced_lift|].
  apply traced_bind; [apply traced_fallback_loop|].
  intros res. destruct (negb _); apply traced_lift.
Qed.

Lemma embedded_reads raw v :
  Json.loads raw = None ->
  Py.find raw 91 <> (-1)%Z ->
  Py.rfind raw 93 <> (-1)%Z ->
  Json.loads (Py.slice raw (Py.find raw 91) (Py.rfind raw 93 + 1)%Z) = Some v ->
  reads raw = Some v.
Proof.
  intros Hl Hf Hr Hs. unfold reads, no_array. rewrite Hl.
  apply Z.eqb_neq in Hf, Hr. now rewrite Hf, Hr.
Qed.

Lemma collect_from batch : forall text_lines line_counts,
  fold_left collect_step batch (text_lines, line_counts)
  = (text_lines ++ concat (List.map (drop 2) batch),
     line_counts ++ List.map (fun block => length (drop 2 block)) batch).
Proof.
  induction batch as [|block batch IH]; intros text_lines line_counts; simpl.
  - now rewrite !app_nil_r.
  - rewrite IH. now rewrite <- !app_assoc.
Qed.

Lemma collect_eq (batch : list (list str)) :
  collect batch
  = (concat (List.map (drop 2) batch),
     List.map (fun block => length (drop 2 block)) batch).
Proof. unfold collect. now rewrite collect_from. Qed.

Lemma length_text_lines (batch : list (list str)) :
  length (concat (List.map (drop 2) batch))
  = sum_list (List.map (fun block => length (drop 2 block)) batch).
Proof.
  induction batch as [|block batch IH]; simpl; [reflexivity|].
  now rewrite length_app, IH.
Qed.

(** ** The translator: the claims *)

(** C8: for the empty input list [translate_lines] returns the empty
    list at once: the state is the one it started from, so no agent
    call was made and no structured attempt took place. *)
Theorem translate_lines_empty (st : state) :
  translate_lines [] st = (inr [], st).
Proof. reflexivity. Qed.

(** C1, amended: when the first two structured responses are set aside
    (no array to read, or an array of the wrong type or length) and the
    third one is read but fails validation, [translate_lines] makes
    exactly these three structured calls and then runs the per-line
    mode: one call per non-empty line, and the only error that can come
    out is a failed call of the agent there.  When the third response
    holds no array at all, [translate_lines] raises [ValueError] after
    the three structured calls, with no per-line call. *)
Theorem retry_then_fallback (lines : list str) (out0 out1 out2 : str)
        (st : state) (w : World) :
  lines <> [] ->
  answers (batch_prompt lines) (world st) [out0; out1; out2] = Some w ->
  discarded lines (Py.strip out0) = true ->
  discarded lines (Py.strip out1) = true ->
  (rejected lines (Py.strip out2) = true ->
   forall r st',
     translate_lines lines st = (r, st') ->
     exists new,
       st' = logged st (world st')
                    (asked (batch_prompt lines) [out0; out1; out2] ++ new)
       /\ fallback_calls lines r new)
  /\ (no_array (Py.strip out2) = true ->
      translate_lines lines st
      = (inl (ValueError (u "Model response is not JSON array: "
                            ++ Py.strip out2)),
         logged st w (asked (batch_prompt lines) [out0; out1; out2]))).
Proof.
  intros Hne Ha H0 H1.
  assert (Hd : Forall (fun o => discarded lines (Py.strip o) = true)
                      [out0; out1]) by (repeat constructor; assumption).
  pose proof (translate_lines_at lines [out0; out1] out2 st w Hne
                ltac:(simpl; lia) Ha Hd _ eq_refl) as Hrun.
  simpl in Hrun. split.
  - intros Hrej r st' Hr. rewrite Hrun in Hr.
    rewrite (rejected_body _ _ _ Hrej) in Hr. simpl in Hr.
    apply fallback_spec in Hr as (new & Hst & Hc & _).
    exists new. split; [|exact Hc].
    rewrite Hst. rewrite logged_logged. reflexivity.
  - intros Hno. rewrite Hrun. unfold attempt_body.
    rewrite (no_array_parse _ _ Hno). reflexivity.
Qed.

(** C2, amended: [translate_lines] never catches a failure of the
    agent.  In any run, a call that fails is the last call made and
    its error is what [translate_lines] raises; in particular a failed
    structured call is not retried and the per-line mode is not
    entered for it. *)
Theorem oracle_failure_propagates (lines : list str) :
  (forall st r st',
      translate_lines lines st = (r, st') ->
      exists new, calls st' = calls st ++ new /\ fail_fast r new)
  /\ (forall pre st w1 e w2,
         lines <> [] ->
         (length pre < 3)%nat ->
         answers (batch_prompt lines) (world st) pre = Some w1 ->
         Forall (fun o => discarded lines (Py.strip o) = true) pre ->
         codex_exec (batch_prompt lines) w1 = (inl e, w2) ->
         translate_lines lines st
         = (inl e, logged st w2 (asked (batch_prompt lines) pre
                                   ++ [(batch_prompt lines, inl e)]))).
Proof.
  split; [apply traced_translate_lines|].
  intros pre st w1 e w2 Hne Hlen Ha Hd Hex.
  destruct lines as [|line rest]; [congruence|].
  unfold translate_lines, bind at 1.
  rewrite (for_attempts_discarded _ pre st w1 Hlen Ha Hd).
  replace (3 - length pre)%nat with (S (2 - length pre)) by lia.
  cbn [seq for_attempts]. unfold bind at 1.
  rewrite (structured_attempt_inl _ _ (logged st w1 _) _ _ Hex).
  now rewrite logged_logged.
Qed.

(** C4, amended: in the per-line mode every empty input line gets the
    empty string and the calls made are those of the non-empty lines
    only; in structured mode the result is the [text] field of each
    entry of the response, whatever the input lines are. *)
Theorem blank_lines (lines : list str) :
  (forall st res st',
      fallback lines st = (inr res, st') ->
      (forall i, lines !! i = Some [] -> res !! i = Some (VStr []))
      /\ exists new,
          st' = logged st (world st') new
          /\ List.map fst new
             = List.map line_prompt (filter (fun l => l <> []) lines))
  /\ (forall pre out ds st w,
         lines <> [] ->
         (length pre < 3)%nat ->
         answers (batch_prompt lines) (world st) (pre ++ [out]) = Some w ->
         Forall (fun o => discarded lines (Py.strip o) = true) pre ->
         reads (Py.strip out) = Some (VList (List.map VDict ds)) ->
         length ds = length lines ->
         translate_lines lines st
         = (inr (List.map text_field ds),
            logged st w (asked (batch_prompt lines) (pre ++ [out])))).
Proof.
  split.
  - intros st res st' Hfb.
    apply fallback_spec in Hfb as (new & Hst & Hc & Hblank). split.
    + now apply Hblank.
    + exists new. split; [exact Hst|]. now destruct Hc as (Hp & _).
  - intros pre out ds st w Hne Hlen Ha Hd Hreads Hds.
    rewrite (translate_lines_at lines pre out st w Hne Hlen Ha Hd _ eq_refl).
    rewrite (accepted_body lines _ _ (List.map text_field ds) _ Hreads);
      [reflexivity| |apply texts_of_dicts].
    now rewrite List.length_map.
Qed.

(** C5: whenever [translate_lines] returns on the text lines of a
    batch, by the structured or by the per-line path, the result is as
    long as the flattened list, which is as long as the sum of the
    counts recorded per block, the count of a block being the number
    of its lines after the first two. *)
Theorem count_preservation (batch : list (list str)) (st : state)
        (res : list value) (st' : state) :
  translate_lines (fst (collect batch)) st = (inr res, st') ->
  length res = length (fst (collect batch))
  /\ length (fst (collect batch)) = sum_list (snd (collect batch))
  /\ snd (collect batch)
     = List.map (fun block => length (drop 2 block)) batch.
Proof.
  intros Hrun. split; [now apply translate_lines_length in Hrun|].
  rewrite collect_eq. simpl. split; [apply length_text_lines|reflexivity].
Qed.

(** C7: a response that is no JSON document but holds an array between
    its first opening and its last closing bracket is read from that
    array: with as many entries as lines, [translate_lines] returns
    their texts.  The response [example_response] is such a one, and
    for a one-line input it gives the single line [privet]. *)
Theorem bracket_recovery :
  (forall lines pre out items texts st w,
      lines <> [] ->
      (length pre < 3)%nat ->
      answers (batch_prompt lines) (world st) (pre ++ [out]) = Some w ->
      Forall (fun o => discarded lines (Py.strip o) = true) pre ->
      Json.loads (Py.strip out) = None ->
      Py.find (Py.strip out) 91 <> (-1)%Z ->
      Py.rfind (Py.strip out) 93 <> (-1)%Z ->
      Json.loads (Py.slice (Py.strip out) (Py.find (Py.strip out) 91)
                           (Py.rfind (Py.strip out) 93 + 1)%Z)
      = Some (VList items) ->
      length items = length lines ->
      texts_of items = inr texts ->
      translate_lines lines st
      = (inr texts, logged st w (asked (batch_prompt lines) (pre ++ [out]))))
  /\ Json.loads example_response = None
  /\ Py.slice example_response (Py.find example_response 91)
              (Py.rfind example_response 93 + 1)%Z
     = embedded_array
  /\ (forall line st w,
         answers (batch_prompt [line]) (world st) [example_response] = Some w ->
         translate_lines [line] st
         = (inr [VStr privet],
            logged st w (asked (batch_prompt [line]) [example_response]))).
Proof.
  assert (Hgen : forall lines pre out items texts st w,
      lines <> [] ->
      (length pre < 3)%nat ->
      answers (batch_prompt lines) (world st) (pre ++ [out]) = Some w ->
      Forall (fun o => discarded lines (Py.strip o) = true) pre ->
      Json.loads (Py.strip out) = None ->
      Py.find (Py.strip out) 91 <> (-1)%Z ->
      Py.rfind (Py.strip out) 93 <> (-1)%Z ->
      Json.loads (Py.slice (Py.strip out) (Py.find (Py.strip out) 91)
                           (Py.rfind (Py.strip out) 93 + 1)%Z)
      = Some (VList items) ->
      length items = length lines ->
      texts_of items = inr texts ->
      translate_lines lines st
      = (inr texts, logged st w (asked (batch_prompt lines) (pre ++ [out])))).
  { intros lines pre out items texts st w Hne Hlen Ha Hd Hl Hf Hr Hs Hn Ht.
    rewrite (translate_lines_at lines pre out st w Hne Hlen Ha Hd _ eq_refl).
    now rewrite (accepted_body lines _ items texts _
                   (embedded_reads _ _ Hl Hf Hr Hs) Hn Ht). }
  split; [exact Hgen|]. split; [now vm_compute|]. split; [now vm_compute|].
  intros line st w Ha.
  apply (Hgen [line] [] example_response
              [VDict [(u "id", VInt 0); (u "text", VStr privet)]]).
  - discriminate.
  - simpl. lia.
  - exact Ha.
  - constructor.
  - vm_compute. reflexivity.
  - vm_compute. discriminate.
  - vm_compute. discriminate.
  - vm_compute. reflexivity.
  - reflexivity.
  - vm_compute. reflexivity.
Qed.

(** C10: a response read as an array of the right length whose first
    element is an object while some element is not makes
    [translate_lines] raise [AttributeError]: the attempt is not set
    aside, no later attempt and no per-line call is made. *)
Theorem mixed_array_raises (lines : list str) (pre : list str) (out : str)
        (items : list value) (st : state) (w : World) :
  lines <> [] ->
  (length pre < 3)%nat ->
  answers (batch_prompt lines) (world st) (pre ++ [out]) = Some w ->
  Forall (fun o => discarded lines (Py.strip o) = true) pre ->
  reads (Py.strip out) = Some (VList items) ->
  length items = length lines ->
  (exists d rest, items = VDict d :: rest) ->
  Exists (fun item => is_dict item = false) items ->
  translate_lines lines st
  = (inl AttributeError,
     logged st w (asked (batch_prompt lines) (pre ++ [out]))).
Proof.
  intros Hne Hlen Ha Hd Hreads Hn (d & rest & Hhd) Hex.
  rewrite (translate_lines_at lines pre out st w Hne Hlen Ha Hd _ eq_refl).
  rewrite (raising_body lines _ items AttributeError _ Hreads Hn);
    [reflexivity|].
  subst items. now apply get_texts_not_dict.
Qed.

(** ** Writing the output *)

Lemma appended_app st p a b :
  appended (appended st p a) p b = appended st p (a ++ b).
Proof.
  unfold appended. simpl. rewrite lookup_insert_eq, insert_insert_eq. simpl.
  now rewrite <- app_assoc.
Qed.

Lemma appended_nil st p :
  is_Some (fs st !! p) -> appended st p [] = st.
Proof.
  intros [c Hc]. unfold appended. rewrite Hc. simpl. rewrite app_nil_r.
  rewrite insert_id by exact Hc. now destruct st.
Qed.

Lemma appended_is_Some st p a : is_Some (fs (appended st p a) !! p).
Proof. unfold appended. simpl. rewrite lookup_insert_eq. eauto. Qed.

Lemma encodable_app a b :
  Py.encodable (a ++ b) = Py.encodable a && Py.encodable b.
Proof. apply forallb_app. Qed.

Lemma encodable_line l : Py.encodable (l ++ [LF]) = Py.encodable l.
Proof. rewrite encodable_app. apply andb_true_r. Qed.

Lemma write_eq p s st :
  Py.encodable s = true -> write p s st = (inr tt, appended st p s).
Proof. intros H. unfold write. now rewrite H. Qed.

Lemma write_refused p s st :
  Py.encodable s = false -> write p s st = (inl UnicodeEncodeError, st).
Proof. intros H. unfold write. now rewrite H. Qed.

Lemma take_drop_cons {A} (l : list A) n i x xs :
  take (S n) (drop i l) = x :: xs ->
  l !! i = Some x /\ take n (drop (S i) l) = xs.
Proof.
  intros H. assert (Hx : l !! i = Some x).
  { rewrite <- (Nat.add_0_r i), <- lookup_drop.
    destruct (drop i l); simpl in *; congruence. }
  split; [exact Hx|]. rewrite (drop_S _ _ _ Hx) in H. simpl in H. congruence.
Qed.

Lemma bind_lift {A B} (r : R A) (k : A -> M B) st a :
  r = inr a -> bind (lift r) k st = k a st.
Proof. now intros ->. Qed.

Lemma bind_write {B} p s (k : unit -> M B) st :
  Py.encodable s = true ->
  bind (write p s) k st = k tt (appended st p s).
Proof. intros H. unfold bind. now rewrite (write_eq _ _ _ H). Qed.

Lemma bind_write_line {B} p l (k : unit -> M B) st :
  Py.encodable l = true ->
  bind (write p (l ++ [LF])) k st = k tt (appended st p (l ++ [LF])).
Proof. intros H. apply bind_write. now rewrite encodable_line. Qed.

Lemma write_texts_spec out translated_lines count :
  forall index texts st,
    is_Some (fs st !! out) ->
    forallb Py.encodable texts = true ->
    take count (drop index translated_lines) = List.map VStr texts ->
    length texts = count ->
    write_texts out translated_lines count index st
    = (inr (index + count)%nat, appended st out (render texts)).
Proof.
  induction count as [|count IH]; intros index texts st Hfile Henc Htake Hlen.
  - destruct texts; [|discriminate]. simpl. unfold render. simpl.
    rewrite (appended_nil _ _ Hfile), Nat.add_0_r. reflexivity.
  - destruct texts as [|t texts]; [discriminate|]. simpl in Htake, Hlen.
    cbn [forallb] in Henc. apply andb_true_iff in Henc as [Ht Henc].
    apply take_drop_cons in Htake as [Hx Htake]. cbn [write_texts].
    assert (Hitem : getitem translated_lines index = inr (VStr t))
      by (unfold getitem; now rewrite Hx).
    rewrite (bind_lift _ _ _ _ Hitem).
    rewrite (bind_lift _ _ _ (t ++ [LF]) eq_refl).
    rewrite (bind_write_line _ _ _ _ Ht).
    rewrite (IH (S index) texts _ (appended_is_Some _ _ _) Henc Htake) by lia.
    rewrite appended_app. unfold render. cbn [List.map concat].
    f_equal. f_equal. lia.
Qed.

(** The two head lines of a block, as the loop reads them. *)
Lemma head_lines (number_line : str) (tail : list str) :
  getitem (number_line :: tail) 0 = inr number_line
  /\ (if (1 <? length (number_line :: tail))%nat
      then getitem (number_line :: tail) 1
      else inr [])
     = inr (default [] ((number_line :: tail) !! 1%nat)).
Proof. split; [reflexivity|]. destruct tail; reflexivity. Qed.

(** One block: the two head lines, the texts, a blank line. *)
Lemma write_block_spec out block count rest translated_lines index texts st :
  block <> [] ->
  forallb Py.encodable (output_lines block texts) = true ->
  take count (drop index translated_lines) = List.map VStr texts ->
  length texts = count ->
  write_blocks out ((block, count) :: rest) translated_lines index st
  = write_blocks out rest translated_lines (index + count)
                 (appended st out (render (output_lines block texts) ++ [LF])).
Proof.
  intros Hne Henc Htake Hlen.
  destruct block as [|number_line tail]; [congruence|].
  unfold output_lines in Henc. cbn [forallb] in Henc.
  apply andb_true_iff in Henc as [H0 Henc].
  apply andb_true_iff in Henc as [H1 Henc].
  change (Py.encodable number_line = true) in H0.
  destruct (head_lines number_line tail) as [_ Htime].
  cbn [write_blocks].
  rewrite (bind_lift _ _ _ number_line eq_refl).
  rewrite (bind_lift _ _ _ _ Htime).
  rewrite (bind_write_line _ _ _ _ H0), (bind_write_line _ _ _ _ H1).
  rewrite (bind_inr _ _ _ _ _
             (write_texts_spec out translated_lines count index texts _
                (appended_is_Some _ _ _) Henc Htake Hlen)).
  rewrite (bind_write _ [LF] _ _ eq_refl), !appended_app.
  unfold output_lines, render. cbn [List.map concat lookup].
  do 2 f_equal. change (list_lookup 0%nat (number_line :: tail))
    with (Some number_line). cbn [default].
  now rewrite <- !app_assoc.
Qed.

(** ** Parsing what was serialized *)

Lemma splitlines_line l : forall cur rest,
  forallb (fun c => negb (Py.islinebreak c)) l = true ->
  Py.splitlines_from cur (l ++ LF :: rest)
  = (cur ++ l) :: Py.splitlines_from [] rest.
Proof.
  induction l as [|c l IH]; intros cur rest Hl; simpl in *.
  - rewrite app_nil_r. now destruct rest.
  - apply andb_true_iff in Hl as [Hc Hl].
    apply negb_true_iff in Hc. rewrite Hc.
    rewrite IH by exact Hl. now rewrite <- app_assoc.
Qed.




Lemma line_ok_strip l : line_ok l = true -> Py.strip l <> [].
Proof.
  unfold line_ok. intros H. apply andb_true_iff in H as [H _].
  apply negb_true_iff in H. now apply bool_decide_eq_false in H.
Qed.

Lemma parse_block block : forall blocks current,
  forallb line_ok block = true ->
  fold_left parse_step block (blocks, current) = (blocks, current ++ block).
Proof.
  induction block as [|l block IH]; intros blocks current Hb; simpl in *.
  - now rewrite app_nil_r.
  - apply andb_true_iff in Hb as [Hl Hb]. apply line_ok_strip in Hl.
    rewrite bool_decide_eq_false_2 by exact Hl.
    rewrite IH by exact Hb. now rewrite <- app_assoc.
Qed.




(** ** Reassembly with the identity translation *)




Lemma slice_nat {A} (l : list A) (a b : nat) :
  Py.slice l (Z.of_nat a) (Z.of_nat (a + b)) = take b (drop a l).
Proof.
  unfold Py.slice. rewrite Nat2Z.id. f_equal. lia.
Qed.



(** The batches cut the blocks into consecutive pieces. *)
Lemma chunks_concat {A} (step : nat) (m : nat) : forall (l : list A),
  (length l <= m * step)%nat ->
  concat (List.map (fun k => take step (drop (k * step) l)) (seq 0 m)) = l.
Proof.
  induction m as [|m IH]; intros l Hlen.
  - simpl in *. destruct l; [reflexivity|simpl in Hlen; lia].
  - rewrite <- cons_seq, <- seq_shift. cbn [List.map concat].
    rewrite List.map_map, drop_0.
    rewrite (List.map_ext _ (fun k => take step (drop (k * step) (drop step l)))).
    + rewrite IH; [apply take_drop|]. rewrite length_drop. lia.
    + intros k. rewrite drop_drop. reflexivity.
Qed.

Lemma batches_concat {A} (l : list A) :
  concat (List.map (fun start => take BATCH_SIZE (drop start l))
                   (Py.range_step 0 (length l) BATCH_SIZE))
  = l.
Proof.
  unfold Py.range_step. rewrite List.map_map.
  rewrite (List.map_ext _ (fun k => take BATCH_SIZE (drop (k * BATCH_SIZE) l)))
    by reflexivity.
  apply chunks_concat. unfold BATCH_SIZE.
  pose proof (Nat.div_mod_eq (length l - 0 + 50 - 1) 50) as Hd.
  pose proof (Nat.mod_upper_bound (length l - 0 + 50 - 1) 50 ltac:(lia)).
  lia.
Qed.

Lemma render_app a b : render (a ++ b) = render a ++ render b.
Proof. unfold render. now rewrite List.map_app, concat_app. Qed.






Lemma line_ok_plain l :
  line_ok l = true ->
  forallb (fun c => negb (Py.islinebreak c)) l = true.
Proof. unfold line_ok. intros H. now apply andb_true_iff in H as [_ H]. Qed.




Lemma parse_srt_blocks_finish text :
  parse_srt_blocks text
  = finish (fold_left parse_step (Py.splitlines text) ([], [])).
Proof.
  unfold parse_srt_blocks, finish.
  now destruct (fold_left parse_step (Py.splitlines text) ([], [])).
Qed.





Lemma forallb_Forall {A} (f : A -> bool) (l : list A) :
  forallb f l = true -> Forall (fun x => f x = true) l.
Proof.
  intros H. apply List.Forall_forall. now apply forallb_forall.
Qed.





(** ** The loop over the files *)

Lemma main_loop_snoc files q acc :
  main_loop (files ++ [q]) acc = main_step (main_loop files acc) q.
Proof. unfold main_loop. now rewrite fold_left_app. Qed.

Lemma unlink_absent out st :
  fs st !! out = None -> unlink out st = st.
Proof.
  intros H. unfold unlink. rewrite delete_id by exact H. now destruct st.
Qed.

Lemma main_step_error r st p exc st' :
  Py.endswith (name p) (u ".ru.srt") || Py.endswith (name p) (u "_ru.srt")
  = false ->
  fs st !! out_path_of p = None ->
  translate_file p (out_path_of p) st = (inl exc, st') ->
  main_step (r, st) p
  = (Report (S (found r)) (translated r) (skipped r) (errors r ++ [(p, exc)]),
     unlink (out_path_of p) st').
Proof.
  intros Hname Hout Hrun. unfold main_step. rewrite Hname, Hout, Hrun.
  cbn [found translated skipped errors]. f_equal.
  destruct (fs st' !! out_path_of p) eqn:Hfile; [reflexivity|].
  now rewrite unlink_absent.
Qed.

(** What one pass through the loop does to the list of errors. *)
Lemma main_step_errors acc q :
  (exists exc, errors_at acc q exc
               /\ errors (fst (main_step acc q))
                  = errors (fst acc) ++ [(q, exc)])
  \/ ((forall exc, ~ errors_at acc q exc)
      /\ errors (fst (main_step acc q)) = errors (fst acc)).
Proof.
  destruct acc as [r st]. unfold errors_at. cbn [fst snd].
  destruct (Py.endswith (name q) (u ".ru.srt")
            || Py.endswith (name q) (u "_ru.srt")) eqn:Hname.
  - right. split; [intros exc (H & _); discriminate|].
    unfold main_step. now rewrite Hname.
  - destruct (fs st !! out_path_of q) eqn:Hout.
    + right. split; [intros exc (_ & H & _); discriminate|].
      unfold main_step. now rewrite Hname, Hout.
    + destruct (translate_file q (out_path_of q) st) as [[exc|[]] st'] eqn:Hrun.
      * left. exists exc. split; [now repeat split|].
        now rewrite (main_step_error r st q exc st' Hname Hout Hrun).
      * right. split; [intros exc (_ & _ & H); discriminate|].
        unfold main_step. now rewrite Hname, Hout, Hrun.
Qed.

Lemma main_loop_errors files : forall acc p exc,
  In (p, exc) (errors (fst (main_loop files acc)))
  <-> In (p, exc) (errors (fst acc))
      \/ exists pre post,
           files = pre ++ p :: post /\ errors_at (main_loop pre acc) p exc.
Proof.
  induction files as [|q files IH] using rev_ind; intros acc p exc.
  - simpl. split; [now left|]. intros [H|(pre & post & H & _)]; [exact H|].
    now destruct pre.
  - rewrite main_loop_snoc. split.
    + intros Hin.
      destruct (main_step_errors (main_loop files acc) q)
        as [(exc' & Hat & Heq)|(_ & Heq)]; rewrite Heq in Hin.
      * apply in_app_or in Hin as [Hin|[[= <- <-]|[]]].
        -- apply IH in Hin as [Hin|(pre & post & -> & Hat')]; [now left|].
           right. exists pre, (post ++ [q]). split; [|exact Hat'].
           now rewrite <- app_assoc.
        -- right. exists files, []. now split.
      * apply IH in Hin as [Hin|(pre & post & -> & Hat')]; [now left|].
        right. exists pre, (post ++ [q]). split; [|exact Hat'].
        now rewrite <- app_assoc.
    + intros Hcase.
      assert (Hold : In (p, exc) (errors (fst (main_loop files acc))) ->
                     In (p, exc)
                        (errors (fst (main_step (main_loop files acc) q)))).
      { intros Hin.
        destruct (main_step_errors (main_loop files acc) q)
          as [(exc' & _ & Heq)|(_ & Heq)]; rewrite Heq; [|exact Hin].
        apply in_or_app. now left. }
      destruct Hcase as [Hin|(pre & post & Heq & Hat)].
      * apply Hold, IH. now left.
      * destruct post as [|x post _] using rev_ind.
        -- apply app_inj_tail in Heq as [<- <-].
           destruct (main_step_errors (main_loop files acc) q)
             as [(exc' & Hat' & Herr)|(Hno & _)];
             [|now contradiction (Hno exc)].
           rewrite Herr. apply in_or_app. right. left.
           destruct Hat as (_ & _ & H1), Hat' as (_ & _ & H2).
           rewrite H1 in H2. now injection H2 as ->.
        -- rewrite app_comm_cons, app_assoc in Heq.
           apply app_inj_tail in Heq as [-> <-].
           apply Hold, IH. right. now exists pre, post.
Qed.

(** C6: a file whose translation raises is the only one aborted: its
    output file is deleted when it exists, the error is recorded and
    the loop goes on with the next file; and the exit status of [main]
    is 0 or 1, and it is not 0 exactly when the translation of some
    file raised. *)
Theorem file_error_is_contained :
  (forall r st p rest exc st',
      Py.endswith (name p) (u ".ru.srt") || Py.endswith (name p) (u "_ru.srt")
      = false ->
      fs st !! out_path_of p = None ->
      translate_file p (out_path_of p) st = (inl exc, st') ->
      main_loop (p :: rest) (r, st)
      = main_loop rest
          (Report (S (found r)) (translated r) (skipped r)
                  (errors r ++ [(p, exc)]),
           unlink (out_path_of p) st')
      /\ fs (unlink (out_path_of p) st') !! out_path_of p = None
      /\ forall q, q <> out_path_of p ->
                   fs (unlink (out_path_of p) st') !! q = fs st' !! q)
  /\ (forall srt_files st,
         (exit_status srt_files st = 0%Z \/ exit_status srt_files st = 1%Z)
         /\ (exit_status srt_files st <> 0%Z
             <-> exists pre p post exc,
                   srt_files = pre ++ p :: post
                   /\ errors_at (main_loop pre (Report 0 0 0 [], st)) p exc)).
Proof.
  split.
  - intros r st p rest exc st' Hname Hout Hrun. split; [|split].
    + unfold main_loop. cbn [fold_left].
      now rewrite (main_step_error r st p exc st' Hname Hout Hrun).
    + unfold unlink. simpl. apply lookup_delete_eq.
    + intros q Hq. unfold unlink. simpl. now apply lookup_delete_ne.
  - intros srt_files st. unfold exit_status, main.
    pose proof (main_loop_errors srt_files (Report 0 0 0 [], st)) as Herr.
    destruct (main_loop srt_files (Report 0 0 0 [], st)) as [r st'] eqn:Hloop.
    cbn [fst snd] in *. split.
    + destruct (errors r); [now left|now right].
    + split.
      * intros Hcode. destruct (errors r) as [|[p exc] errs] eqn:He;
          [congruence|].
        destruct (proj1 (Herr p exc) ltac:(now left))
          as [[]|(pre & post & Heq & Hat)].
        now exists pre, p, post, exc.
      * intros (pre & p & post & exc & Heq & Hat).
        assert (Hin : In (p, exc) (errors r))
          by (apply Herr; right; now exists pre, post).
        destruct (errors r); [now destruct Hin|discriminate].
Qed.

(** ** More on the parser *)

Lemma parse_step_blank blocks current line :
  Py.strip line = [] ->
  parse_step (blocks, current) line
  = match current with
    | [] => (blocks, [])
    | _ :: _ => (blocks ++ [current], [])
    end.
Proof.
  intros H. unfold parse_step. rewrite bool_decide_eq_true_2 by exact H.
  now destruct current.
Qed.

Lemma parse_step_text blocks current line :
  Py.strip line <> [] ->
  parse_step (blocks, current) line = (blocks, current ++ [line]).
Proof.
  intros H. unfold parse_step. now rewrite bool_decide_eq_false_2 by exact H.
Qed.

Lemma parse_step_shape lines : forall blocks current,
  Forall (fun b => b <> [] /\ Forall (fun l => Py.strip l <> []) b) blocks ->
  Forall (fun l => Py.strip l <> []) current ->
  Forall (fun b => b <> [] /\ Forall (fun l => Py.strip l <> []) b)
         (fst (fold_left parse_step lines (blocks, current)))
  /\ Forall (fun l => Py.strip l <> [])
            (snd (fold_left parse_step lines (blocks, current))).
Proof.
  induction lines as [|line lines IH]; intros blocks current Hb Hc;
    [now split|].
  cbn [fold_left]. destruct (decide (Py.strip line = [])) as [Hblank|Hblank].
  - rewrite (parse_step_blank _ _ _ Hblank).
    destruct current as [|l current]; [now apply IH|].
    apply IH; [|constructor]. apply Forall_app. split; [exact Hb|].
    constructor; [|constructor]. now split.
  - rewrite (parse_step_text _ _ _ Hblank).
    apply IH; [exact Hb|]. apply Forall_app. split; [exact Hc|].
    now repeat constructor.
Qed.

Lemma parse_step_lines lines : forall blocks current,
  concat (fst (fold_left parse_step lines (blocks, current)))
  ++ snd (fold_left parse_step lines (blocks, current))
  = concat blocks ++ current
    ++ filter (fun l => Py.strip l <> []) lines.
Proof.
  induction lines as [|line lines IH]; intros blocks current.
  - simpl. now rewrite app_nil_r.
  - cbn [fold_left]. destruct (decide (Py.strip line = [])) as [Hblank|Hblank].
    + rewrite (parse_step_blank _ _ _ Hblank).
      rewrite filter_cons_False by tauto.
      destruct current as [|l current]; [apply IH|].
      rewrite IH, concat_app. simpl. now rewrite app_nil_r, <- !app_assoc.
    + rewrite (parse_step_text _ _ _ Hblank).
      rewrite filter_cons_True by exact Hblank.
      rewrite IH. now rewrite <- !app_assoc.
Qed.

Lemma parsed_blocks_nonempty (text : str) :
  Forall (fun b => b <> [] /\ Forall (fun l => Py.strip l <> []) b)
         (parse_srt_blocks text).
Proof.
  rewrite parse_srt_blocks_finish.
  destruct (parse_step_shape (Py.splitlines text) [] [])
    as [Hb Hc]; [constructor|constructor|].
  unfold finish.
  destruct (snd (fold_left parse_step (Py.splitlines text) ([], [])))
    as [|l current] eqn:Hcur; [exact Hb|].
  apply Forall_app. split; [exact Hb|]. constructor; [|constructor].
  now split.
Qed.

(** X1: every block the parser returns has at least one line, and none
    of its lines is blank; so the first line of a block, which
    [translate_file] reads, is always there. *)
Theorem parsed_blocks_shape (text : str) :
  Forall (fun b => (exists number_line, b !! 0%nat = Some number_line)
                   /\ Forall (fun l => Py.strip l <> []) b)
         (parse_srt_blocks text).
Proof.
  eapply Forall_impl; [apply parsed_blocks_nonempty|].
  intros [|l b] [Hne Hlines]; [congruence|]. split; [now exists l|exact Hlines].
Qed.

(** X2: the lines of the blocks, taken in order, are the lines of the
    text that are not blank, in the order of the text: the parser drops
    the blank lines and nothing else. *)
Theorem parsed_blocks_lines (text : str) :
  concat (parse_srt_blocks text)
  = filter (fun l => Py.strip l <> []) (Py.splitlines text).
Proof.
  rewrite parse_srt_blocks_finish.
  pose proof (parse_step_lines (Py.splitlines text) [] []) as H.
  simpl in H. rewrite <- H. unfold finish.
  destruct (snd (fold_left parse_step (Py.splitlines text) ([], [])));
    [now rewrite app_nil_r|].
  rewrite concat_app. simpl. now rewrite app_nil_r.
Qed.

Lemma splitlines_render ls :
  Forall (fun l => forallb (fun c => negb (Py.islinebreak c)) l = true) ls ->
  Py.splitlines_from [] (render ls) = ls.
Proof.
  induction ls as [|l ls IH]; intros Hls; [reflexivity|].
  apply Forall_cons in Hls as [Hl Hls].
  change (render (l :: ls)) with ((l ++ [LF]) ++ render ls).
  rewrite <- app_assoc. simpl app at 2.
  rewrite splitlines_line by exact Hl. simpl. now rewrite IH.
Qed.

(** C9: a block is written as its first line, its second line, the
    translated lines and a blank line, provided UTF-8 can encode them;
    when none of them holds a line boundary, the text written has
    exactly these (2 + text-line count) lines and one empty line after
    them.  For a block of fewer than two lines an empty line stands
    where the time line would be, and what is written is not the block
    followed by a separator. *)
Theorem short_block_written (out : path) (block : list str)
        (translated_lines : list value) (index : nat) (texts : list str)
        (st : state) :
  block <> [] ->
  take (length (drop 2 block)) (drop index translated_lines)
  = List.map VStr texts ->
  length texts = length (drop 2 block) ->
  forallb Py.encodable (output_lines block texts) = true ->
  write_blocks out [(block, length (drop 2 block))] translated_lines index st
  = (inr (index + length (drop 2 block))%nat,
     appended st out (render (output_lines block texts) ++ [LF]))
  /\ (forallb plain (output_lines block texts) = true ->
      Py.splitlines (render (output_lines block texts) ++ [LF])
      = output_lines block texts ++ [[]]
      /\ length (output_lines block texts ++ [[]])
         = (2 + length (drop 2 block) + 1)%nat)
  /\ ((length block < 2)%nat ->
      output_lines block texts = block ++ [[]]
      /\ render (output_lines block texts) ++ [LF] <> render block ++ [LF]).
Proof.
  intros Hne Htake Hlen Henc. split; [|split].
  - now rewrite (write_block_spec out block _ [] translated_lines index texts
                   st Hne Henc Htake Hlen).
  - intros Hplain. split.
    + change [LF] with (render [[]]). rewrite <- render_app.
      unfold Py.splitlines. apply splitlines_render.
      apply Forall_app. split; [|now repeat constructor].
      now apply forallb_Forall.
    + rewrite length_app. unfold output_lines. simpl. rewrite Hlen. lia.
  - intros Hshort. destruct block as [|x [|y tail]]; simpl in *;
      [congruence| |lia].
    destruct texts; [|discriminate]. split; [reflexivity|].
    unfold output_lines, render. simpl. intros Heq.
    apply (f_equal length) in Heq. rewrite !length_app in Heq.
    simpl in Heq. lia.
Qed.

Lemma block_lines_ok_inv block :
  block_lines_ok block = true -> block <> [] /\ forallb line_ok block = true.
Proof. destruct block; [discriminate|]. now split. Qed.

Lemma parse_followed blocks : forall acc,
  forallb block_lines_ok blocks = true ->
  fold_left parse_step (concat (List.map (fun b => b ++ [[]]) blocks))
            (acc, [])
  = (acc ++ blocks, []).
Proof.
  induction blocks as [|b blocks IH]; intros acc Hok.
  - simpl. now rewrite app_nil_r.
  - simpl in Hok. apply andb_true_iff in Hok as [Hb Hok].
    apply block_lines_ok_inv in Hb as [Hne Hb].
    cbn [List.map concat]. rewrite <- app_assoc, fold_left_app.
    rewrite parse_block by exact Hb. cbn [app fold_left].
    destruct b as [|l b]; [congruence|].
    change (parse_step (acc, l :: b) []) with (acc ++ [l :: b], @nil (list N)).
    rewrite IH by exact Hok. now rewrite <- app_assoc.
Qed.

Lemma serialized_render blocks :
  serialized blocks = render (concat (List.map (fun b => b ++ [[]]) blocks)).
Proof.
  induction blocks as [|b blocks IH]; [reflexivity|].
  change (serialized (b :: blocks))
    with ((render b ++ [LF]) ++ serialized blocks).
  cbn [List.map concat]. rewrite !render_app, IH. reflexivity.
Qed.

(** X3: blocks written each with a blank line after it, the layout of
    the output file, are read back by the parser as the same blocks,
    whenever every block has a line and the lines are not blank and hold
    no line boundary. *)
Theorem parse_serialized (blocks : list (list str)) :
  forallb block_lines_ok blocks = true ->
  parse_srt_blocks (serialized blocks) = blocks.
Proof.
  intros Hok. rewrite parse_srt_blocks_finish, serialized_render.
  unfold Py.splitlines. rewrite splitlines_render.
  - now rewrite parse_followed.
  - apply Forall_concat. apply List.Forall_forall. intros ls Hin.
    apply in_map_iff in Hin as (b & <- & Hb).
    pose proof (proj1 (forallb_forall _ _) Hok b Hb) as Hbok.
    apply block_lines_ok_inv in Hbok as [_ Hlines].
    apply Forall_app. split; [|now repeat constructor].
    apply List.Forall_forall. intros l Hl.
    apply line_ok_plain. exact (proj1 (forallb_forall _ _) Hlines l Hl).
Qed.

(** ** More on [translate_lines] *)

Lemma for_attempts_calls lines ks : forall st r st1,
  for_attempts (structured_attempt lines) ks st = (r, st1) ->
  exists s,
    st1 = logged st (world st1) s
    /\ (length s <= length ks)%nat
    /\ Forall (fun ev => fst ev = batch_prompt lines) s.
Proof.
  induction ks as [|k ks IH]; intros st r st1 Hrun.
  - injection Hrun as <- <-. exists []. rewrite logged_nil.
    repeat split; [simpl; lia|constructor].
  - cbn [for_attempts] in Hrun. unfold bind at 1 in Hrun.
    destruct (codex_exec (batch_prompt lines) (world st)) as [[e|out] w] eqn:Hex.
    + rewrite (structured_attempt_inl _ _ _ _ _ Hex) in Hrun.
      injection Hrun as <- <-. eexists. split; [reflexivity|].
      split; [simpl; lia|now repeat constructor].
    + rewrite (structured_attempt_inr _ _ _ _ _ Hex) in Hrun.
      destruct (attempt_body lines (Py.strip out) k) as [e|[| |texts]].
      * injection Hrun as <- <-. eexists. split; [reflexivity|].
        split; [simpl; lia|now repeat constructor].
      * apply IH in Hrun as (s & Hst & Hlen & Hs).
        exists ((batch_prompt lines, inr out) :: s).
        split; [rewrite Hst at 1; now rewrite logged_logged|].
        split; [simpl; lia|now constructor].
      * injection Hrun as <- <-. eexists. split; [reflexivity|].
        split; [simpl; lia|now repeat constructor].
      * injection Hrun as <- <-. eexists. split; [reflexivity|].
        split; [simpl; lia|now repeat constructor].
Qed.

Lemma fallback_calls_prefix lines r new :
  fallback_calls lines r new ->
  List.map fst new
    `prefix_of` List.map line_prompt (filter (fun l => l <> []) lines).
Proof.
  destruct r as [e|res]; simpl.
  - now intros (pre & p & _ & H).
  - intros (H & _). now rewrite H.
Qed.

(** X4: whatever the agent answers, [translate_lines] leaves the files
    alone and makes at most three structured calls, all with the same
    prompt, followed by per-line calls for non-empty lines, in order
    and at most one per line: never more than three calls plus one per
    non-empty line. *)
Theorem call_budget (lines : list str) (st : state) (r : exn + list value)
        (st' : state) :
  translate_lines lines st = (r, st') ->
  fs st' = fs st
  /\ exists s f,
      calls st' = calls st ++ s ++ f
      /\ (length s <= 3)%nat
      /\ Forall (fun ev => fst ev = batch_prompt lines) s
      /\ List.map fst f
           `prefix_of` List.map line_prompt (filter (fun l => l <> []) lines)
      /\ (length (s ++ f)
          <= 3 + length (filter (fun l => l <> []) lines))%nat.
Proof.
  destruct lines as [|line rest]; unfold translate_lines.
  - intros [= <- <-]. split; [reflexivity|]. exists [], [].
    repeat split; [now rewrite app_nil_r|simpl; lia|constructor|
                   apply prefix_nil|simpl; lia].
  - unfold bind at 1.
    destruct (for_attempts (structured_attempt (line :: rest))
                           [0; 1; 2]%nat st)
      as [[e|[texts|]] st1] eqn:Hfor;
      apply for_attempts_calls in Hfor as (s & Hst1 & Hlen & Hs);
      simpl in Hlen.
    + intros [= <- <-]. rewrite Hst1. split; [reflexivity|].
      exists s, []. rewrite !app_nil_r.
      repeat split; [lia|exact Hs|apply prefix_nil|lia].
    + intros [= <- <-]. rewrite Hst1. split; [reflexivity|].
      exists s, []. rewrite !app_nil_r.
      repeat split; [lia|exact Hs|apply prefix_nil|lia].
    + intros Hfb. apply fallback_spec in Hfb as (f & Hst' & Hc & _).
      apply fallback_calls_prefix in Hc.
      rewrite Hst', Hst1. split; [reflexivity|]. exists s, f.
      split; [simpl; now rewrite app_assoc|].
      repeat split; [lia|exact Hs|exact Hc|].
      apply prefix_length in Hc. rewrite !List.length_map in Hc.
      rewrite length_app. apply Nat.add_le_mono; [exact Hlen|exact Hc].
Qed.

Lemma get_texts_errors items e :
  get_texts items = inl e -> e = AttributeError.
Proof.
  induction items as [|item rest IH]; simpl; [discriminate|].
  destruct item; simpl; try (now intros [= <-]).
  destruct (get_texts rest); simpl; [|discriminate].
  intros [= <-]. now apply IH.
Qed.

Lemma attempt_body_errors lines raw attempt e :
  attempt_body lines raw attempt = inl e -> own_error e.
Proof.
  unfold attempt_body, parse_response.
  destruct (Json.loads raw) as [v|].
  - simpl. destruct v; simpl; try discriminate.
    destruct (length items =? length lines)%nat; [|discriminate].
    destruct (texts_of items) as [e'|texts] eqn:Ht; simpl.
    + intros [= <-]. right. right. unfold texts_of in Ht.
      destruct items as [|[] ?]; try discriminate.
      now apply get_texts_errors in Ht.
    + destruct (length texts =? length lines)%nat; discriminate.
  - destruct (_ || _).
    + destruct (attempt =? 2)%nat; simpl; [|discriminate].
      intros [= <-]. left. now exists raw.
    + destruct (Json.loads (Py.slice raw _ _)) as [v|]; simpl.
      * destruct v; simpl; try discriminate.
        destruct (length items =? length lines)%nat; [|discriminate].
        destruct (texts_of items) as [e'|texts] eqn:Ht; simpl.
        -- intros [= <-]. right. right. unfold texts_of in Ht.
           destruct items as [|[] ?]; try discriminate.
           now apply get_texts_errors in Ht.
        -- destruct (length texts =? length lines)%nat; discriminate.
      * intros [= <-]. right. now left.
Qed.

Lemma for_attempts_errors lines ks : forall st e st1,
  for_attempts (structured_attempt lines) ks st = (inl e, st1) ->
  last_call_failed st st1 e \/ own_error e.
Proof.
  induction ks as [|k ks IH]; intros st e st1 Hrun; [discriminate|].
  cbn [for_attempts] in Hrun. unfold bind at 1 in Hrun.
  destruct (codex_exec (batch_prompt lines) (world st)) as [[e'|out] w] eqn:Hex.
  - rewrite (structured_attempt_inl _ _ _ _ _ Hex) in Hrun.
    injection Hrun as <- <-. left. now exists [], (batch_prompt lines).
  - rewrite (structured_attempt_inr _ _ _ _ _ Hex) in Hrun.
    destruct (attempt_body lines (Py.strip out) k) as [e'|[| |texts]] eqn:Hb;
      try discriminate.
    + injection Hrun as <- <-. right. now apply attempt_body_errors in Hb.
    + apply IH in Hrun as [(pre & p & Hc)|Hown]; [|now right].
      left. exists ((batch_prompt lines, inr out) :: pre), p.
      rewrite Hc. simpl. now rewrite <- app_assoc.
Qed.

(** X5: when [translate_lines] raises in a run in which every
    response of the agent stays within the limits of the decoder (so
    that decoding it raises nothing but [JSONDecodeError]), either the
    last call of the agent failed and the error is that failure, or
    the error is the [ValueError] about a response that holds no
    array, a [JSONDecodeError] or an [AttributeError].  Whatever the
    responses, the [ValueError] of the length check that ends the
    per-line mode is not raised by [translate_lines] itself: if it
    comes out, it is the failure of the last call. *)
Theorem translate_lines_errors (lines : list str) (st : state) (e : exn)
        (st' : state) :
  translate_lines lines st = (inl e, st') ->
  (forallb in_limits (drop (length (calls st)) (calls st')) = true ->
   last_call_failed st st' e \/ own_error e)
  /\ (e = ValueError (u "Translated output has unexpected length") ->
      last_call_failed st st' e).
Proof.
  intros Hrun.
  assert (H : last_call_failed st st' e \/ own_error e); [|split].
  - destruct lines as [|line rest]; unfold translate_lines in Hrun;
      [discriminate|].
    unfold bind at 1 in Hrun.
    destruct (for_attempts (structured_attempt (line :: rest))
                           [0; 1; 2]%nat st)
      as [[e'|[texts|]] st1] eqn:Hfor.
    + injection Hrun as <- <-. now apply for_attempts_errors in Hfor.
    + discriminate.
    + apply for_attempts_calls in Hfor as (s & Hst1 & _).
      apply fallback_spec in Hrun as (f & Hst' & Hc & _).
      destruct Hc as (pre & p & -> & _). left.
      exists (s ++ pre), p. rewrite Hst', Hst1. simpl.
      now rewrite <- !app_assoc.
  - intros _. exact H.
  - intros ->. destruct H as [H|[[raw H]|[H|H]]];
      [exact H|discriminate|discriminate|discriminate].
Qed.

(** X6: a response read as an array of the right length whose first
    element is not an object is accepted whatever its other elements
    are: every element is turned into a string by [to_str], and no
    error is raised. *)
Theorem scalar_array_coerced (lines : list str) (pre : list str) (out : str)
        (items : list value) (st : state) (w : World) :
  lines <> [] ->
  (length pre < 3)%nat ->
  answers (batch_prompt lines) (world st) (pre ++ [out]) = Some w ->
  Forall (fun o => discarded lines (Py.strip o) = true) pre ->
  reads (Py.strip out) = Some (VList items) ->
  length items = length lines ->
  hd_is_dict items = false ->
  translate_lines lines st
  = (inr (List.map to_str items),
     logged st w (asked (batch_prompt lines) (pre ++ [out]))).
Proof.
  intros Hne Hlen Ha Hd Hreads Hn Hhd.
  rewrite (translate_lines_at lines pre out st w Hne Hlen Ha Hd _ eq_refl).
  rewrite (accepted_body lines _ items (List.map to_str items) _ Hreads Hn);
    [reflexivity|].
  unfold texts_of. destruct items as [|[] ?]; try reflexivity. discriminate.
Qed.

Lemma unreadable_body lines raw attempt :
  no_array raw = false ->
  reads raw = None ->
  attempt_body lines raw attempt = inl JSONDecodeError.
Proof.
  unfold reads, no_array, attempt_body, parse_response.
  destruct (Json.loads raw); [discriminate|].
  intros ->. now intros ->.
Qed.

(** X7: a response that is no JSON document and has both brackets, but
    no JSON document between the first opening and the last closing
    one, makes [translate_lines] raise [JSONDecodeError] at that
    attempt: it is not retried and the per-line mode is not entered. *)
Theorem unreadable_array_raises (lines : list str) (pre : list str)
        (out : str) (st : state) (w : World) :
  lines <> [] ->
  (length pre < 3)%nat ->
  answers (batch_prompt lines) (world st) (pre ++ [out]) = Some w ->
  Forall (fun o => discarded lines (Py.strip o) = true) pre ->
  no_array (Py.strip out) = false ->
  reads (Py.strip out) = None ->
  translate_lines lines st
  = (inl JSONDecodeError,
     logged st w (asked (batch_prompt lines) (pre ++ [out]))).
Proof.
  intros Hne Hlen Ha Hd Hno Hreads.
  rewrite (translate_lines_at lines pre out st w Hne Hlen Ha Hd _ eq_refl).
  now rewrite (unreadable_body lines _ _ Hno Hreads).
Qed.

(** ** More on writing *)

Lemma write_texts_cons out translated_lines count index st :
  write_texts out translated_lines (S count) index st
  = match rbind (getitem translated_lines index) add_newline with
    | inl e => (inl e, st)
    | inr s =>
        if Py.encodable s then
          write_texts out translated_lines count (S index) (appended st out s)
        else (inl UnicodeEncodeError, st)
    end.
Proof.
  cbn [write_texts]. unfold bind at 1, lift.
  destruct (getitem translated_lines index) as [e|item]; [reflexivity|].
  simpl. unfold bind at 1, lift.
  destruct (add_newline item) as [e|s]; [reflexivity|].
  unfold bind at 1, write.
  destruct (Py.encodable s); reflexivity.
Qed.

Lemma bad_item_raises out translated_lines count index st e :
  bad_item translated_lines index = Some e ->
  write_texts out translated_lines (S count) index st = (inl e, st).
Proof.
  rewrite write_texts_cons. unfold bad_item, getitem.
  destruct (translated_lines !! index) as [item|]; simpl;
    [|now intros [= <-]].
  destruct item; simpl; try (now intros [= <-]).
  rewrite encodable_line. destruct (Py.encodable s); [discriminate|].
  now intros [= <-].
Qed.

Lemma write_texts_fail out translated_lines e k :
  forall count index texts st,
    is_Some (fs st !! out) ->
    forallb Py.encodable texts = true ->
    take k (drop index translated_lines) = List.map VStr texts ->
    length texts = k ->
    (k < count)%nat ->
    bad_item translated_lines (index + k) = Some e ->
    write_texts out translated_lines count index st
    = (inl e, appended st out (render texts)).
Proof.
  induction k as [|k IH];
    intros count index texts st Hfile Henc Htake Hlen Hk Hbad;
    (destruct count as [|count]; [lia|]).
  - destruct texts; [|discriminate]. rewrite Nat.add_0_r in Hbad.
    rewrite (bad_item_raises _ _ _ _ _ _ Hbad). unfold render. simpl.
    now rewrite (appended_nil _ _ Hfile).
  - destruct texts as [|t texts]; [discriminate|]. simpl in Htake, Hlen.
    cbn [forallb] in Henc. apply andb_true_iff in Henc as [Ht Henc].
    apply take_drop_cons in Htake as [Hx Htake].
    rewrite write_texts_cons. unfold getitem. rewrite Hx. simpl.
    rewrite encodable_line, Ht.
    rewrite (IH count (S index) texts _ (appended_is_Some _ _ _) Henc Htake);
      [|lia|lia|now replace (S index + k)%nat with (index + S k)%nat by lia].
    rewrite appended_app. reflexivity.
Qed.

(** X8: when the translated lines give out, or hold an item that
    cannot be written (no string, or a string that UTF-8 cannot
    encode), within the lines due to a block, writing stops there with
    [IndexError], [TypeError] or [UnicodeEncodeError]: the two head
    lines of the block and the lines before the bad item are in the
    file, the blank line and the later blocks are not. *)
Theorem write_stops_at_bad_item (out : path) (block : list str)
        (count : nat) (rest : list (list str * nat))
        (translated_lines : list value) (index k : nat) (texts : list str)
        (e : exn) (st : state) :
  block <> [] ->
  forallb Py.encodable (output_lines block texts) = true ->
  take k (drop index translated_lines) = List.map VStr texts ->
  length texts = k ->
  (k < count)%nat ->
  bad_item translated_lines (index + k) = Some e ->
  write_blocks out ((block, count) :: rest) translated_lines index st
  = (inl e, appended st out (render (output_lines block texts))).
Proof.
  intros Hne Henc Htake Hlen Hk Hbad.
  destruct block as [|number_line tail]; [congruence|].
  unfold output_lines in Henc. cbn [forallb] in Henc.
  apply andb_true_iff in Henc as [H0 Henc].
  apply andb_true_iff in Henc as [H1 Henc].
  change (Py.encodable number_line = true) in H0.
  destruct (head_lines number_line tail) as [_ Htime].
  cbn [write_blocks].
  rewrite (bind_lift _ _ _ number_line eq_refl).
  rewrite (bind_lift _ _ _ _ Htime).
  rewrite (bind_write_line _ _ _ _ H0), (bind_write_line _ _ _ _ H1).
  rewrite (bind_inl _ _ _ _ _
             (write_texts_fail out translated_lines e k count index texts _
                (appended_is_Some _ _ _) Henc Htake Hlen Hk Hbad)).
  rewrite !appended_app. unfold output_lines, render.
  cbn [List.map concat lookup].
  change (list_lookup 0%nat (number_line :: tail)) with (Some number_line).
  cbn [default]. now rewrite <- !app_assoc.
Qed.








(** ** Which files are touched *)

Lemma keeps_lift out {A} (r : R A) : keeps_others out (lift r).
Proof. now intros st r' st' [= <- <-]. Qed.

Lemma keeps_bind out {A B} (m : M A) (k : A -> M B) :
  keeps_others out m -> (forall a, keeps_others out (k a)) ->
  keeps_others out (bind m k).
Proof.
  intros Hm Hk st r st'. unfold bind.
  destruct (m st) as [[e|a] st1] eqn:Hrun.
  - intros [= <- <-]. now apply (Hm _ _ _ Hrun).
  - intros Hrun2 q Hq. rewrite (Hk _ _ _ _ Hrun2 q Hq).
    now apply (Hm _ _ _ Hrun).
Qed.

Lemma keeps_write out s : keeps_others out (write out s).
Proof.
  intros st r st'. unfold write.
  destruct (Py.encodable s); intros [= <- <-] q Hq; [|reflexivity].
  simpl. now apply lookup_insert_ne.
Qed.

Lemma translate_lines_fs lines st r st' :
  translate_lines lines st = (r, st') -> fs st' = fs st.
Proof.
  destruct lines as [|line rest]; unfold translate_lines.
  - now intros [= <- <-].
  - unfold bind at 1.
    destruct (for_attempts (structured_attempt (line :: rest))
                           [0; 1; 2]%nat st)
      as [[e|[texts|]] st1] eqn:Hfor;
      apply for_attempts_calls in Hfor as (s & Hst1 & _).
    + intros [= <- <-]. now rewrite Hst1.
    + intros [= <- <-]. now rewrite Hst1.
    + intros Hfb. apply fallback_spec in Hfb as (f & Hst' & _).
      now rewrite Hst', Hst1.
Qed.

Lemma keeps_translate_lines out lines :
  keeps_others out (translate_lines lines).
Proof.
  intros st r st' Hrun q _. now rewrite (translate_lines_fs _ _ _ _ Hrun).
Qed.

Lemma keeps_write_texts out translated_lines count : forall index,
  keeps_others out (write_texts out translated_lines count index).
Proof.
  induction count as [|count IH]; intros index; cbn [write_texts].
  - apply keeps_lift.
  - apply keeps_bind; [apply keeps_lift|]. intros item.
    apply keeps_bind; [apply keeps_lift|]. intros s.
    apply keeps_bind; [apply keeps_write|]. intros _. apply IH.
Qed.

Lemma keeps_write_blocks out translated_lines pairs : forall index,
  keeps_others out (write_blocks out pairs translated_lines index).
Proof.
  induction pairs as [|[block count] pairs IH]; intros index;
    cbn [write_blocks].
  - apply keeps_lift.
  - apply keeps_bind; [apply keeps_lift|]. intros number_line.
    apply keeps_bind; [apply keeps_lift|]. intros time_line.
    apply keeps_bind; [apply keeps_write|]. intros _.
    apply keeps_bind; [apply keeps_write|]. intros _.
    apply keeps_bind; [apply keeps_write_texts|]. intros index'.
    apply keeps_bind; [apply keeps_write|]. intros _. apply IH.
Qed.

Lemma keeps_for_batches out blocks starts :
  keeps_others out (for_batches translate_lines out blocks starts).
Proof.
  induction starts as [|start starts IH]; cbn [for_batches].
  - apply keeps_lift.
  - apply keeps_bind; [|intros _; exact IH].
    unfold translate_batch. destruct (collect _) as [text_lines line_counts].
    apply keeps_bind; [apply keeps_translate_lines|]. intros res.
    apply keeps_bind; [apply keeps_write_blocks|]. intros _.
    apply keeps_lift.
Qed.

Lemma keeps_translate_file p out :
  keeps_others out (translate_file p out).
Proof.
  unfold translate_file, translate_file_with.
  apply keeps_bind.
  - intros st r st'. unfold read_text.
    destruct (fs st !! p); now intros [= <- <-].
  - intros text. apply keeps_bind; [|intros _; apply keeps_for_batches].
    intros st r st' [= <- <-] q Hq. simpl. now apply lookup_insert_ne.
Qed.

(** X10: whether it returns or raises, [translate_file] changes no file
    but its output file; the input file in particular is left as it
    was. *)
Theorem translate_file_frame (p out_path : path) (st : state)
        (r : exn + unit) (st' : state) (q : path) :
  translate_file p out_path st = (r, st') ->
  q <> out_path ->
  fs st' !! q = fs st !! q.
Proof. intros Hrun Hq. now apply (keeps_translate_file p out_path _ _ _ Hrun). Qed.

Lemma endswith_app a t : Py.endswith (a ++ t) t = true.
Proof.
  unfold Py.endswith. apply bool_decide_eq_true_2.
  rewrite length_app, Nat.add_sub. apply drop_app_length.
Qed.

Lemma out_path_suffix p :
  Py.endswith (name (out_path_of p)) (u ".ru.srt") = true.
Proof. unfold out_path_of. cbn [name]. apply endswith_app. Qed.

(** X11: an output file found among the files is passed over by
    [main]: the name every output file gets ends with [.ru.srt], so a
    translation is never translated again nor counted. *)
Theorem output_passed_over (acc : report * state) (p : path) :
  main_step acc (out_path_of p) = acc.
Proof.
  destruct acc as [r st]. unfold main_step.
  now rewrite out_path_suffix.
Qed.

Lemma main_step_frame acc p q :
  Py.endswith (name q) (u ".ru.srt") = false ->
  fs (snd (main_step acc p)) !! q = fs (snd acc) !! q.
Proof.
  intros Hq. destruct acc as [r st]. unfold main_step.
  destruct (_ || _); [reflexivity|].
  destruct (fs st !! out_path_of p) eqn:Hout; [reflexivity|].
  assert (Hne : q <> out_path_of p).
  { intros ->. now rewrite out_path_suffix in Hq. }
  destruct (translate_file p (out_path_of p) st) as [[e|[]] st'] eqn:Hrun;
    cbn [snd].
  - destruct (fs st' !! out_path_of p); [unfold unlink; cbn [fs];
      rewrite lookup_delete_ne by congruence|];
      now apply (keeps_translate_file _ _ _ _ _ Hrun).
  - now apply (keeps_translate_file _ _ _ _ _ Hrun).
Qed.

(** X12: [main] changes, creates or deletes no file whose name does not
    end with [.ru.srt]; the subtitle files it reads are left as they
    were, whatever happens while translating. *)
Theorem main_frame (srt_files : list path) (st : state) (q : path) :
  Py.endswith (name q) (u ".ru.srt") = false ->
  fs (snd (main srt_files st)) !! q = fs st !! q.
Proof.
  intros Hq. unfold main.
  assert (Hloop : forall files acc,
             fs (snd (main_loop files acc)) !! q = fs (snd acc) !! q).
  { induction files as [|p files IH]; intros acc; [reflexivity|].
    unfold main_loop in *. cbn [fold_left]. rewrite IH.
    now apply main_step_frame. }
  specialize (Hloop srt_files (Report 0 0 0 [], st)).
  destruct (main_loop srt_files (Report 0 0 0 [], st)) as [r st'].
  exact Hloop.
Qed.

(** X13: two files with names ending in [.srt] get the same output
    file only when they are the same file. *)
Theorem out_path_injective (p q : path) :
  Py.endswith (name p) (u ".srt") = true ->
  Py.endswith (name q) (u ".srt") = true ->
  out_path_of p = out_path_of q ->
  p = q.
Proof.
  unfold Py.endswith, out_path_of. intros Hp Hq Heq.
  apply bool_decide_eq_true_1 in Hp, Hq.
  change (length (u ".srt")) with 4%nat in Hp, Hq.
  injection Heq as Hparent Hname. apply app_inv_tail in Hname.
  destruct p as [dp np], q as [dq nq]. cbn [name parent] in *.
  subst dq. f_equal.
  rewrite <- (take_drop (length np - 4) np), <- (take_drop (length nq - 4) nq).
  now rewrite Hp, Hq, Hname.
Qed.

(** ** The report *)

Lemma main_step_balance r st p :
  (found (fst (main_step (r, st) p)) + translated r + skipped r
   + length (errors r)
   = found r + translated (fst (main_step (r, st) p))
     + skipped (fst (main_step (r, st) p))
     + length (errors (fst (main_step (r, st) p)))
   /\ found (fst (main_step (r, st) p)) <= S (found r))%nat.
Proof.
  unfold main_step. destruct (_ || _); [cbn; lia|].
  destruct (fs st !! out_path_of p); [cbn; lia|].
  destruct (translate_file p (out_path_of p) st) as [[e|[]] st'];
    cbn; rewrite ?length_app; cbn; lia.
Qed.

Lemma main_loop_balance files : forall r st,
  (found (fst (main_loop files (r, st))) + translated r + skipped r
   + length (errors r)
   = found r + translated (fst (main_loop files (r, st)))
     + skipped (fst (main_loop files (r, st)))
     + length (errors (fst (main_loop files (r, st))))
   /\ found (fst (main_loop files (r, st))) <= found r + length files)%nat.
Proof.
  induction files as [|p files IH]; intros r st; [cbn; lia|].
  unfold main_loop in *. cbn [fold_left length].
  pose proof (main_step_balance r st p) as [H1 H2].
  destruct (main_step (r, st) p) as [r1 st1]. cbn [fst] in *.
  destruct (IH r1 st1) as [H3 H4]. lia.
Qed.

(** X14: in the report of [main] every file found is counted once: the
    number found is the number translated plus the number skipped plus
    the number of errors, and it is at most the number of files
    given. *)
Theorem report_balance (srt_files : list path) (st : state) :
  (found (snd (fst (main srt_files st)))
   = translated (snd (fst (main srt_files st)))
     + skipped (snd (fst (main srt_files st)))
     + length (errors (snd (fst (main srt_files st))))
   /\ found (snd (fst (main srt_files st))) <= length srt_files)%nat.
Proof.
  unfold main.
  pose proof (main_loop_balance srt_files (Report 0 0 0 []) st) as [H1 H2].
  destruct (main_loop srt_files (Report 0 0 0 [], st)) as [r st'].
  cbn in *. lia.
Qed.

Lemma main_loop_skips files : forall r st,
  forallb (fun p => passed_over p || has_output st p) files = true ->
  main_loop files (r, st)
  = (Report (found r
             + length (List.filter (fun p => negb (passed_over p)) files))%nat
            (translated r)
            (skipped r
             + length (List.filter (fun p => negb (passed_over p)) files))%nat
            (errors r),
     st).
Proof.
  induction files as [|p files IH]; intros r st Hall.
  - simpl. rewrite !Nat.add_0_r. now destruct r.
  - simpl in Hall. apply andb_true_iff in Hall as [Hp Hall].
    unfold main_loop in *. cbn [fold_left List.filter].
    unfold main_step at 2. fold (passed_over p).
    destruct (passed_over p) eqn:Hpass; cbn [negb].
    + apply IH, Hall.
    + simpl in Hp. unfold has_output in Hp.
      destruct (fs st !! out_path_of p); [|discriminate].
      rewrite IH by exact Hall. cbn. do 2 f_equal; lia.
Qed.

(** X15: when every file given either is passed over for its name or
    has its output file already, [main] skips them all: no call of the
    agent is made, no file is changed, nothing is translated, and the
    exit status is 0. *)
Theorem rerun_skips (srt_files : list path) (st : state) :
  forallb (fun p => passed_over p || has_output st p) srt_files = true ->
  main srt_files st
  = (0%Z,
     Report (length (List.filter (fun p => negb (passed_over p)) srt_files)) 0
            (length (List.filter (fun p => negb (passed_over p)) srt_files)) [],
     st).
Proof.
  intros Hall. unfold main.
  now rewrite (main_loop_skips srt_files (Report 0 0 0 []) st Hall).
Qed.

(** ** The batches *)

Lemma range_step_bound n k :
  (k < (n - 0 + BATCH_SIZE - 1) / BATCH_SIZE)%nat -> (k * BATCH_SIZE < n)%nat.
Proof.
  unfold BATCH_SIZE. intros Hk.
  pose proof (Nat.div_mod_eq (n - 0 + 50 - 1) 50) as Hd.
  pose proof (Nat.mod_upper_bound (n - 0 + 50 - 1) 50 ltac:(lia)).
  nia.
Qed.

(** X16: the batches are consecutive pieces of the blocks, in order and
    without gap or overlap, and each one holds at least one and at most
    [BATCH_SIZE] blocks. *)
Theorem batches_partition (blocks : list (list str)) :
  concat (List.map
            (fun start => Py.slice blocks (Z.of_nat start)
                                   (Z.of_nat (start + BATCH_SIZE)))
            (Py.range_step 0 (length blocks) BATCH_SIZE))
  = blocks
  /\ Forall (fun start =>
               (1 <= length (Py.slice blocks (Z.of_nat start)
                                      (Z.of_nat (start + BATCH_SIZE)))
                <= BATCH_SIZE)%nat)
            (Py.range_step 0 (length blocks) BATCH_SIZE).
Proof.
  split.
  - rewrite (List.map_ext _ (fun start => take BATCH_SIZE (drop start blocks)))
      by (intros; apply slice_nat).
    apply batches_concat.
  - apply List.Forall_forall. intros start Hin. rewrite slice_nat.
    unfold Py.range_step in Hin. apply in_map_iff in Hin as (k & <- & Hk).
    apply in_seq in Hk as [_ Hk]. apply range_step_bound in Hk.
    rewrite length_take, length_drop. unfold BATCH_SIZE in *. lia.
Qed.

(** ** Re-folding the translated lines *)

Lemma write_blocks_refold out batch : forall pre texts st,
  is_Some (fs st !! out) ->
  Forall (fun block => block <> []) batch ->
  forallb (forallb Py.encodable) (refold batch texts) = true ->
  length texts = length (concat (List.map (drop 2) batch)) ->
  write_blocks out
    (combine batch (List.map (fun block => length (drop 2 block)) batch))
    (List.map VStr (pre ++ texts)) (length pre) st
  = (inr (length pre + length texts)%nat,
     appended st out (serialized (refold batch texts))).
Proof.
  induction batch as [|block batch IH];
    intros pre texts st Hfile Hne Henc Hlen.
  - destruct texts; [|discriminate]. simpl.
    change (serialized []) with (@nil N).
    rewrite (appended_nil _ _ Hfile), Nat.add_0_r. reflexivity.
  - apply Forall_cons in Hne as [Hb Hne].
    cbn [List.map combine concat refold forallb] in *.
    apply andb_true_iff in Henc as [Hbe Henc].
    rewrite length_app in Hlen.
    rewrite (write_block_spec out block _ _ _ _
               (take (length (drop 2 block)) texts) _ Hb Hbe).
    + replace (length pre + length (drop 2 block))%nat
        with (length (pre ++ take (length (drop 2 block)) texts))
        by (rewrite length_app, length_take; lia).
      rewrite <- (take_drop (length (drop 2 block)) texts) at 1.
      rewrite (app_assoc pre).
      rewrite (IH _ _ _ (appended_is_Some _ _ _) Hne Henc)
        by (rewrite length_drop; lia).
      rewrite appended_app, !length_app, length_take, !length_drop.
      rewrite length_drop in Hlen.
      change (serialized (?b :: ?l)) with ((render b ++ [LF]) ++ serialized l).
      f_equal. f_equal. lia.
    + rewrite List.map_app, drop_app_length' by now rewrite List.length_map.
      now rewrite <- List.firstn_map.
    + rewrite length_take. lia.
Qed.

Lemma refold_texts batch : forall texts,
  length texts = length (concat (List.map (drop 2) batch)) ->
  concat (List.map (drop 2) (refold batch texts)) = texts.
Proof.
  induction batch as [|block batch IH]; intros texts Hlen.
  - now destruct texts.
  - cbn [List.map concat refold] in *. rewrite length_app in Hlen.
    unfold output_lines at 1. cbn [drop].
    rewrite IH by (rewrite length_drop; lia). apply take_drop.
Qed.

(** X17: when the translator returns as many strings as the batch has
    text lines, and UTF-8 can encode every line that is to be written,
    [translate_batch] writes the blocks in order, each with its first
    line, its second line or an empty line, then as many translated
    lines as the block had text lines, then a blank line; the
    translated lines are used up in order, none left out. *)
Theorem translate_batch_refolds (tl : list str -> M (list value))
        (out : path) (batch : list (list str)) (texts : list str)
        (st st1 : state) :
  Forall (fun block => block <> []) batch ->
  tl (fst (collect batch)) st = (inr (List.map VStr texts), st1) ->
  is_Some (fs st1 !! out) ->
  length texts = length (fst (collect batch)) ->
  forallb (forallb Py.encodable) (refold batch texts) = true ->
  translate_batch tl out batch st
  = (inr tt, appended st1 out (serialized (refold batch texts)))
  /\ concat (List.map (drop 2) (refold batch texts)) = texts.
Proof.
  rewrite collect_eq. cbn [fst]. intros Hne Hrun Hfile Hlen Henc. split.
  - unfold translate_batch. rewrite collect_eq. cbv beta iota.
    rewrite (bind_inr _ _ _ _ _ Hrun).
    rewrite (bind_inr _ _ _ _ _
               (write_blocks_refold out batch [] texts st1 Hfile Hne Henc
                                    Hlen)).
    reflexivity.
  - now apply refold_texts.
Qed.

(** ** Stripped text *)

Lemma lstrip_head s c t : Py.lstrip s = c :: t -> Py.isspace c = false.
Proof.
  induction s as [|x s IH]; simpl; [discriminate|].
  destruct (Py.isspace x) eqn:Hx; [exact IH|]. now intros [= <- _].
Qed.

Lemma lstrip_fixed s :
  (forall c t, s = c :: t -> Py.isspace c = false) -> Py.lstrip s = s.
Proof.
  destruct s as [|c t]; [reflexivity|]. intros H. simpl.
  now rewrite (H c t eq_refl).
Qed.

Lemma lstrip_idem s : Py.lstrip (Py.lstrip s) = Py.lstrip s.
Proof.
  apply lstrip_fixed. intros c t H. now apply lstrip_head in H.
Qed.

Lemma lstrip_app_nonempty l m :
  Py.lstrip l <> [] -> Py.lstrip (l ++ m) = Py.lstrip l ++ m.
Proof.
  induction l as [|x l IH]; simpl; [congruence|].
  destruct (Py.isspace x); [exact IH|reflexivity].
Qed.

Lemma lstrip_app_empty l m :
  Py.lstrip l = [] -> Py.lstrip (l ++ m) = Py.lstrip m.
Proof.
  induction l as [|x l IH]; simpl; [reflexivity|].
  destruct (Py.isspace x); [exact IH|discriminate].
Qed.

Lemma lstrip_length s : (length (Py.lstrip s) <= length s)%nat.
Proof.
  induction s as [|x s IH]; simpl; [lia|].
  destruct (Py.isspace x); simpl; lia.
Qed.

Lemma lstrip_split s :
  exists sp, s = sp ++ Py.lstrip s /\ Py.lstrip sp = [].
Proof.
  induction s as [|x s (sp & Hs & Hsp)]; [now exists []|]. simpl.
  destruct (Py.isspace x) eqn:Hx.
  - exists (x :: sp). split; [simpl; now rewrite <- Hs|].
    simpl. now rewrite Hx.
  - now exists [].
Qed.

Lemma rstrip_idem s : Py.rstrip (Py.rstrip s) = Py.rstrip s.
Proof. unfold Py.rstrip. now rewrite rev_involutive, lstrip_idem. Qed.

Lemma rstrip_lstrip a :
  Py.rstrip a = a -> Py.rstrip (Py.lstrip a) = Py.lstrip a.
Proof.
  unfold Py.rstrip. intros Ha.
  assert (Hrev : Py.lstrip (rev a) = rev a)
    by (rewrite <- Ha at 2; now rewrite rev_involutive).
  destruct (lstrip_split a) as (sp & Hsplit & Hsp).
  revert Hsplit. generalize (Py.lstrip a). intros b ->.
  rewrite rev_app_distr in Hrev.
  destruct (Py.lstrip (rev b)) as [|c t] eqn:Hb.
  - rewrite (lstrip_app_empty _ _ Hb) in Hrev.
    pose proof (lstrip_length (rev sp)) as Hlen.
    rewrite Hrev, length_app, !length_rev in Hlen.
    destruct b; [reflexivity|simpl in Hlen; lia].
  - rewrite lstrip_app_nonempty in Hrev by (rewrite Hb; discriminate).
    apply app_inv_tail in Hrev. rewrite <- Hb, Hrev. apply rev_involutive.
Qed.

Lemma strip_idem s : Py.strip (Py.strip s) = Py.strip s.
Proof.
  unfold Py.strip. rewrite (rstrip_lstrip _ (rstrip_idem s)).
  apply lstrip_idem.
Qed.

(** X18: the text [call_codex] returns has no whitespace at either end:
    stripping it again, as the per-line mode does, changes nothing, and
    when it is not empty its first and its last character are not
    whitespace. *)
Theorem call_codex_stripped (prompt : str) (st : state) (out : str)
        (st' : state) :
  call_codex prompt st = (inr out, st') ->
  Py.strip out = out
  /\ (forall c t, out = c :: t -> Py.isspace c = false)
  /\ (forall c t, out = t ++ [c] -> Py.isspace c = false).
Proof.
  unfold call_codex.
  destruct (codex_exec prompt (world st)) as [[e|raw] w]; [discriminate|].
  intros [= <- _]. split; [apply strip_idem|]. split.
  - intros c t H. unfold Py.strip in H. now apply lstrip_head in H.
  - intros c t H.
    pose proof (rstrip_lstrip _ (rstrip_idem raw)) as Hr.
    fold (Py.strip raw) in Hr. rewrite H in Hr. unfold Py.rstrip in Hr.
    apply (f_equal (@rev N)) in Hr. rewrite rev_involutive in Hr.
    rewrite rev_app_distr in Hr.
    change (rev [c] ++ rev t) with (c :: rev t) in Hr.
    now apply lstrip_head in Hr.
Qed.

(** ** The text of the request, read back *)

Lemma scanstring_plain fuel c rest :
  c <> 34 -> c <> 92 -> 32 <= c ->
  Json.scanstring (S fuel) (c :: rest)
  = Json.push c (Json.scanstring fuel rest).
Proof.
  intros H34 H92 H32. cbn [Json.scanstring].
  apply N.eqb_neq in H34, H92. rewrite H34, H92.
  apply N.ltb_ge in H32. now rewrite H32.
Qed.

Lemma scanstring_backslash fuel e ch rest :
  e <> 117 -> Json.backslash e = Some ch ->
  Json.scanstring (S fuel) (92 :: e :: rest)
  = Json.push ch (Json.scanstring fuel rest).
Proof.
  intros H117 Hch. cbn [Json.scanstring].
  change (92 =? 34) with false. change (92 =? 92) with true. cbv iota.
  apply N.eqb_neq in H117. now rewrite H117, Hch.
Qed.

Lemma scanstring_hex fuel h1 h2 h3 h4 uni rest :
  Json.hex4 h1 h2 h3 h4 = Some uni -> uni < 55296 ->
  Json.scanstring (S fuel) (92 :: 117 :: h1 :: h2 :: h3 :: h4 :: rest)
  = Json.push uni (Json.scanstring fuel rest).
Proof.
  intros Hhex Huni. cbn [Json.scanstring].
  change (92 =? 34) with false. change (92 =? 92) with true.
  change (117 =? 117) with true. cbv iota. rewrite Hhex.
  assert (H : (55296 <=? uni) = false) by (apply N.leb_gt; exact Huni).
  now rewrite H.
Qed.

Lemma hex_escape c :
  c < 32 ->
  Json.hex4 48 48 (Json.hex_char (c / 16)) (Json.hex_char (c mod 16)) = Some c.
Proof.
  intros Hc. rewrite <- (N2Nat.id c).
  assert (Hn : (N.to_nat c < 32)%nat) by lia.
  revert Hn. generalize (N.to_nat c). intros n Hn.
  do 32 (destruct n as [|n]; [vm_compute; reflexivity|]). lia.
Qed.

Lemma scanstring_escape fuel c rest :
  Json.scanstring (S fuel) (Json.escape_char c ++ rest)
  = Json.push c (Json.scanstring fuel rest).
Proof.
  unfold Json.escape_char.
  destruct (c =? 34) eqn:H34;
    [apply N.eqb_eq in H34; subst c;
     now apply scanstring_backslash|].
  destruct (c =? 92) eqn:H92;
    [apply N.eqb_eq in H92; subst c;
     now apply scanstring_backslash|].
  destruct (c =? 10) eqn:H10;
    [apply N.eqb_eq in H10; subst c;
     now apply scanstring_backslash|].
  destruct (c =? 13) eqn:H13;
    [apply N.eqb_eq in H13; subst c;
     now apply scanstring_backslash|].
  destruct (c =? 9) eqn:H9;
    [apply N.eqb_eq in H9; subst c;
     now apply scanstring_backslash|].
  destruct (c =? 8) eqn:H8;
    [apply N.eqb_eq in H8; subst c;
     now apply scanstring_backslash|].
  destruct (c =? 12) eqn:H12;
    [apply N.eqb_eq in H12; subst c;
     now apply scanstring_backslash|].
  destruct (c <? 32) eqn:H32.
  - apply N.ltb_lt in H32.
    apply scanstring_hex; [now apply hex_escape|lia].
  - apply N.ltb_ge in H32. apply N.eqb_neq in H34, H92.
    now apply scanstring_plain.
Qed.

Lemma scanstring_escaped s : forall fuel rest,
  (length s < fuel)%nat ->
  Json.scanstring fuel (concat (List.map Json.escape_char s) ++ 34 :: rest)
  = Some (s, rest).
Proof.
  induction s as [|c s IH]; intros fuel rest Hfuel;
    (destruct fuel as [|fuel]; [simpl in Hfuel; lia|]).
  - reflexivity.
  - cbn [List.map concat]. rewrite <- app_assoc, scanstring_escape.
    rewrite IH by (simpl in Hfuel; lia). reflexivity.
Qed.

Lemma escaped_length s :
  (length s <= length (concat (List.map Json.escape_char s)))%nat.
Proof.
  induction s as [|c s IH]; [simpl; lia|].
  cbn [List.map concat]. rewrite length_app. simpl length at 1.
  assert (1 <= length (Json.escape_char c))%nat; [|lia].
  unfold Json.escape_char.
  repeat match goal with |- context [if ?b then _ else _] => destruct b end;
    simpl; lia.
Qed.

(** X19: the text of a line, written into the request the way
    [json.dumps] writes a string, is read back by [json.loads] as that
    same text, whatever characters the line holds: quotes, backslashes
    and control characters included. *)
Theorem dumped_text_loads (s : str) :
  Json.loads (Json.dumps_str s) = Some (VStr s).
Proof.
  unfold Json.dumps_str, Json.loads.
  change ([34] ++ concat (List.map Json.escape_char s) ++ [34])
    with (34 :: (concat (List.map Json.escape_char s) ++ [34])).
  cbn [Json.skip_ws]. change (Json.is_ws 34) with false. cbv iota.
  cbn [Json.scan_once]. change (34 =? 34) with true. cbv iota.
  rewrite scanstring_escaped; [reflexivity|].
  rewrite length_app. pose proof (escaped_length s). simpl. lia.
Qed.

(** ** The request, read back *)

Lemma string_of_uint_digits d :
  u (NilEmpty.string_of_uint d) = digits_of d.
Proof.
  induction d; simpl; try reflexivity; unfold u in *; simpl; now f_equal.
Qed.

Lemma to_uint_normal n : Decimal.unorm (Nat.to_uint n) = Nat.to_uint n.
Proof.
  rewrite <- (DecimalNat.Unsigned.to_of (Nat.to_uint n)).
  now rewrite DecimalNat.Unsigned.of_to.
Qed.

Lemma str_of_nat_digits n : Py.str_of_nat n = digits_of (Nat.to_uint n).
Proof.
  unfold Py.str_of_nat, NilZero.string_of_uint.
  pose proof (DecimalFacts.unorm_nonnil (Nat.to_uint n)) as Hnil.
  rewrite to_uint_normal in Hnil.
  destruct (Nat.to_uint n); try apply string_of_uint_digits. congruence.
Qed.

Lemma digits_run d c rest :
  Json.is_digit c = false ->
  Json.digits (digits_of d ++ c :: rest) = (digits_of d, c :: rest).
Proof.
  intros Hc. induction d; simpl;
    try (change (Json.is_digit _) with true; cbv iota; now rewrite IHd).
  now rewrite Hc.
Qed.

Lemma digits_value d : forall acc,
  fold_left (fun a c => (a * 10 + Z.of_N (c - 48))%Z) (digits_of d)
            (Z.of_nat acc)
  = Z.of_nat (Nat.of_uint_acc d acc).
Proof.
  induction d; intros acc; simpl; try reflexivity;
    rewrite <- IHd; f_equal; rewrite Nat.tail_mul_spec; lia.
Qed.

Lemma str_of_nat_value n :
  Json.nat_of_digits (Py.str_of_nat n) = Z.of_nat n.
Proof.
  rewrite str_of_nat_digits. unfold Json.nat_of_digits.
  etransitivity; [exact (digits_value (Nat.to_uint n) 0%nat)|].
  change (Nat.of_uint_acc (Nat.to_uint n) 0) with (Nat.of_uint (Nat.to_uint n)).
  now rewrite DecimalNat.Unsigned.of_to.
Qed.

Lemma leading_zero_is_zero d :
  Decimal.unorm (Decimal.D0 d) = Decimal.D0 d -> d = Decimal.Nil.
Proof.
  rewrite DecimalFacts.unorm_D0. unfold Decimal.unorm. intros Hnorm.
  pose proof (DecimalFacts.nb_digits_nzhead d) as Hle.
  destruct (Decimal.nzhead d) eqn:Hd;
    try (apply (f_equal Decimal.nb_digits) in Hnorm; simpl in Hnorm, Hle; lia).
  now injection Hnorm.
Qed.

Lemma int_part_str_of_nat n c rest :
  Json.is_digit c = false ->
  Json.int_part (Py.str_of_nat n ++ c :: rest)
  = Some (Py.str_of_nat n, c :: rest).
Proof.
  intros Hc. rewrite str_of_nat_digits.
  pose proof (to_uint_normal n) as Hnorm.
  pose proof (DecimalFacts.unorm_nonnil (Nat.to_uint n)) as Hnil.
  rewrite Hnorm in Hnil.
  destruct (Nat.to_uint n) as [|d|d|d|d|d|d|d|d|d|d]; try congruence;
    try (simpl; change (Json.is_digit _) with true; cbv iota;
         now rewrite (digits_run d c rest Hc)).
  apply leading_zero_is_zero in Hnorm. subst d. reflexivity.
Qed.

Lemma str_of_nat_head n :
  exists c t, Py.str_of_nat n = c :: t /\ Json.is_digit c = true.
Proof.
  rewrite str_of_nat_digits.
  pose proof (DecimalFacts.unorm_nonnil (Nat.to_uint n)) as Hnil.
  rewrite to_uint_normal in Hnil.
  destruct (Nat.to_uint n); try congruence; simpl; eauto.
Qed.

Lemma match_number_nat n rest :
  Json.match_number (Py.str_of_nat n ++ 44 :: rest)
  = Some (VInt (Z.of_nat n), 44 :: rest).
Proof.
  unfold Json.match_number.
  destruct (str_of_nat_head n) as (c & t & Hs & Hc).
  assert (Hminus : (c =? 45) = false).
  { unfold Json.is_digit in Hc. apply andb_true_iff in Hc as [H1 H2].
    apply N.leb_le in H1. apply N.eqb_neq. lia. }
  assert (Hsign : match Py.str_of_nat n ++ 44 :: rest with
                  | c' :: s' =>
                      if c' =? 45 then (true, s')
                      else (false, Py.str_of_nat n ++ 44 :: rest)
                  | [] => (false, Py.str_of_nat n ++ 44 :: rest)
                  end
                  = (false, Py.str_of_nat n ++ 44 :: rest)).
  { rewrite Hs at 1. cbn [app]. now rewrite Hminus. }
  rewrite Hsign. rewrite int_part_str_of_nat by reflexivity.
  cbn [Json.frac_part Json.exp_part].
  change (44 =? 46) with false. change ((44 =? 101) || (44 =? 69)) with false.
  cbv iota. now rewrite str_of_nat_value.
Qed.

Lemma scan_once_nat fuel n rest :
  Json.scan_once (S fuel) (Py.str_of_nat n ++ 44 :: rest)
  = Some (VInt (Z.of_nat n), 44 :: rest).
Proof.
  pose proof (match_number_nat n rest) as Hnum.
  destruct (str_of_nat_head n) as (c & t & Hs & Hc).
  rewrite Hs in *. cbn [app] in *. cbn [Json.scan_once].
  unfold Json.is_digit in Hc. apply andb_true_iff in Hc as [H1 H2].
  apply N.leb_le in H1, H2.
  assert (H34 : (c =? 34) = false) by (apply N.eqb_neq; lia).
  assert (H123 : (c =? 123) = false) by (apply N.eqb_neq; lia).
  assert (H91 : (c =? 91) = false) by (apply N.eqb_neq; lia).
  assert (H110 : (c =? 110) = false) by (apply N.eqb_neq; lia).
  assert (H116 : (c =? 116) = false) by (apply N.eqb_neq; lia).
  assert (H102 : (c =? 102) = false) by (apply N.eqb_neq; lia).
  now rewrite H34, H123, H91, H110, H116, H102, Hnum.
Qed.

Lemma dumps_entry_shape index line rest :
  dumps_entry index line ++ rest
  = [123; 34; 105; 100; 34; 58; 32]
      ++ Py.str_of_nat index
      ++ [44; 32; 34; 116; 101; 120; 116; 34; 58; 32; 34]
      ++ concat (List.map Json.escape_char line) ++ [34; 125] ++ rest.
Proof.
  unfold dumps_entry, Json.dumps_str. rewrite <- !app_assoc. reflexivity.
Qed.

Lemma scan_string fuel s' x r :
  Json.scanstring (S (length s')) s' = Some (x, r) ->
  Json.scan_once (S fuel) (34 :: s') = Some (VStr x, r).
Proof.
  intros H. cbn [Json.scan_once]. change (34 =? 34) with true. cbv iota.
  now rewrite H.
Qed.

Lemma scan_object fuel s' r1 d r :
  Json.skip_ws s' = 34 :: r1 ->
  Json.object_members fuel r1 [] = Some (d, r) ->
  Json.scan_once (S fuel) (123 :: s') = Some (VDict d, r).
Proof.
  intros Hws Hm. cbn [Json.scan_once].
  change (123 =? 34) with false. change (123 =? 123) with true. cbv iota.
  rewrite Hws. change (34 =? 34) with true. cbv iota. now rewrite Hm.
Qed.

Lemma scan_array fuel s' c1 r1 l r :
  Json.skip_ws s' = c1 :: r1 ->
  c1 <> 93 ->
  Json.array_items fuel (c1 :: r1) [] = Some (l, r) ->
  Json.scan_once (S fuel) (91 :: s') = Some (VList l, r).
Proof.
  intros Hws Hc Hitems. cbn [Json.scan_once].
  change (91 =? 34) with false. change (91 =? 123) with false.
  change (91 =? 91) with true. cbv iota.
  rewrite Hws. apply N.eqb_neq in Hc. rewrite Hc. now rewrite Hitems.
Qed.

Lemma member_then_more fuel s acc key r r1 v r2 r3 r4 :
  Json.scanstring (S (length s)) s = Some (key, r) ->
  Json.skip_ws r = 58 :: r1 ->
  Json.scan_once fuel (Json.skip_ws r1) = Some (v, r2) ->
  Json.skip_ws r2 = 44 :: r3 ->
  Json.skip_ws r3 = 34 :: r4 ->
  Json.object_members (S fuel) s acc
  = Json.object_members fuel r4 (dict_set acc key v).
Proof.
  intros Hkey Hcolon Hval Hcomma Hquote. cbn [Json.object_members].
  rewrite Hkey, Hcolon. change (58 =? 58) with true. cbv iota.
  rewrite Hval, Hcomma. change (44 =? 125) with false.
  change (44 =? 44) with true. cbv iota. rewrite Hquote.
  change (34 =? 34) with true. reflexivity.
Qed.

Lemma member_then_end fuel s acc key r r1 v r2 r3 :
  Json.scanstring (S (length s)) s = Some (key, r) ->
  Json.skip_ws r = 58 :: r1 ->
  Json.scan_once fuel (Json.skip_ws r1) = Some (v, r2) ->
  Json.skip_ws r2 = 125 :: r3 ->
  Json.object_members (S fuel) s acc = Some (dict_set acc key v, r3).
Proof.
  intros Hkey Hcolon Hval Hbrace. cbn [Json.object_members].
  rewrite Hkey, Hcolon. change (58 =? 58) with true. cbv iota.
  rewrite Hval, Hbrace. change (125 =? 125) with true. reflexivity.
Qed.

Lemma item_then_more fuel s acc v r r' :
  Json.scan_once fuel s = Some (v, r) ->
  Json.skip_ws r = 44 :: r' ->
  Json.array_items (S fuel) s acc
  = Json.array_items fuel (Json.skip_ws r') (acc ++ [v]).
Proof.
  intros Hval Hcomma. cbn [Json.array_items]. rewrite Hval, Hcomma.
  change (44 =? 93) with false. change (44 =? 44) with true. reflexivity.
Qed.

Lemma item_then_end fuel s acc v r r' :
  Json.scan_once fuel s = Some (v, r) ->
  Json.skip_ws r = 93 :: r' ->
  Json.array_items (S fuel) s acc = Some (acc ++ [v], r').
Proof.
  intros Hval Hclose. cbn [Json.array_items]. rewrite Hval, Hclose.
  change (93 =? 93) with true. reflexivity.
Qed.

Lemma skip_ws_nat n rest :
  Json.skip_ws (Py.str_of_nat n ++ rest) = Py.str_of_nat n ++ rest.
Proof.
  destruct (str_of_nat_head n) as (c & t & Hs & Hc).
  rewrite Hs. cbn [app Json.skip_ws].
  unfold Json.is_digit in Hc. apply andb_true_iff in Hc as [H1 H2].
  apply N.leb_le in H1, H2. unfold Json.is_ws.
  assert (H32 : (c =? 32) = false) by (apply N.eqb_neq; lia).
  assert (H9 : (c =? 9) = false) by (apply N.eqb_neq; lia).
  assert (H10 : (c =? 10) = false) by (apply N.eqb_neq; lia).
  assert (H13 : (c =? 13) = false) by (apply N.eqb_neq; lia).
  now rewrite H32, H9, H10, H13.
Qed.

Lemma scan_once_entry fuel index line rest :
  Json.scan_once (S (S (S (S fuel)))) (dumps_entry index line ++ rest)
  = Some (entry_value index line, rest).
Proof.
  rewrite dumps_entry_shape. cbn [app].
  set (E := concat (List.map Json.escape_char line) ++ 34 :: 125 :: rest).
  set (T := 116 :: 101 :: 120 :: 116 :: 34 :: 58 :: 32 :: 34 :: E).
  apply (scan_object _ _ (105 :: 100 :: 34 :: 58 :: 32
                            :: Py.str_of_nat index ++ 44 :: 32 :: 34 :: T));
    [reflexivity|].
  rewrite (member_then_more (S (S fuel)) _ [] (u "id")
             (58 :: 32 :: Py.str_of_nat index ++ 44 :: 32 :: 34 :: T)
             (32 :: Py.str_of_nat index ++ 44 :: 32 :: 34 :: T)
             (VInt (Z.of_nat index)) (44 :: 32 :: 34 :: T) (32 :: 34 :: T) T).
  - rewrite (member_then_end (S fuel) T _ (u "text") (58 :: 32 :: 34 :: E)
               (32 :: 34 :: E) (VStr line) (125 :: rest) rest).
    + reflexivity.
    + apply (scanstring_escaped (u "text")). simpl. lia.
    + reflexivity.
    + change (Json.skip_ws (32 :: 34 :: E)) with (34 :: E).
      apply scan_string. apply (scanstring_escaped line).
      unfold E. rewrite length_app. pose proof (escaped_length line).
      simpl. lia.
    + reflexivity.
  - apply (scanstring_escaped (u "id")). simpl. lia.
  - reflexivity.
  - change (Json.skip_ws (32 :: ?x)) with (Json.skip_ws x).
    rewrite skip_ws_nat. apply scan_once_nat.
  - reflexivity.
  - reflexivity.
Qed.

Lemma imap_pairs {B} (f : nat -> str -> B) (lines : list str) : forall k,
  imap (fun i => f (k + i)%nat) lines
  = List.map (fun p => f (fst p) (snd p)) (combine (seq k (length lines)) lines).
Proof.
  induction lines as [|line lines IH]; intros k; [reflexivity|].
  cbn [imap length seq combine List.map fst snd]. rewrite Nat.add_0_r.
  f_equal. rewrite <- IH. apply imap_ext. intros i x _. simpl.
  f_equal. lia.
Qed.

Lemma skip_ws_entries (ps : list (nat * str)) p rest :
  Json.skip_ws
    (join (u ", ") (List.map (fun p => dumps_entry (fst p) (snd p)) (p :: ps))
       ++ rest)
  = join (u ", ") (List.map (fun p => dumps_entry (fst p) (snd p)) (p :: ps))
      ++ rest.
Proof. destruct ps; reflexivity. Qed.

Lemma array_of_entries (ps : list (nat * str)) : forall fuel acc rest,
  ps <> [] ->
  (length ps + 4 < fuel)%nat ->
  Json.array_items fuel
    (join (u ", ") (List.map (fun p => dumps_entry (fst p) (snd p)) ps)
       ++ 93 :: rest)
    acc
  = Some (acc ++ List.map (fun p => entry_value (fst p) (snd p)) ps, rest).
Proof.
  induction ps as [|p ps IH]; intros fuel acc rest Hne Hfuel; [congruence|].
  destruct fuel as [|[|[|[|[|fuel]]]]]; simpl in Hfuel; try lia.
  destruct ps as [|p2 ps].
  - cbn [List.map join].
    now rewrite (item_then_end _ _ acc _ (93 :: rest) rest
                   (scan_once_entry _ (fst p) (snd p) (93 :: rest)) eq_refl).
  - change (join (u ", ") (List.map _ (p :: p2 :: ps)))
      with (dumps_entry (fst p) (snd p) ++ [44; 32]
              ++ join (u ", ")
                   (List.map (fun p => dumps_entry (fst p) (snd p)) (p2 :: ps))).
    rewrite <- !app_assoc. cbn [app].
    set (J := join (u ", ")
                   (List.map (fun p => dumps_entry (fst p) (snd p)) (p2 :: ps))
                ++ 93 :: rest).
    rewrite (item_then_more _ _ acc _ (44 :: 32 :: J) (32 :: J)
               (scan_once_entry _ (fst p) (snd p) _) eq_refl).
    change (Json.skip_ws (32 :: J)) with (Json.skip_ws J). unfold J.
    rewrite skip_ws_entries.
    rewrite IH; [|discriminate|simpl in *; lia].
    now rewrite <- app_assoc.
Qed.

Lemma join_length {A} (sep : list A) (l : list (list A)) :
  (sum_list (List.map length l) <= length (join sep l))%nat.
Proof.
  induction l as [|x l IH]; [simpl; lia|].
  destruct l as [|y l]; [simpl; lia|].
  change (join sep (x :: y :: l)) with (x ++ sep ++ join sep (y :: l)).
  rewrite !length_app. cbn [List.map sum_list] in *. unfold id in *. lia.
Qed.

Lemma entries_length (ps : list (nat * str)) :
  (5 * length ps
   <= length (join (u ", ")
                   (List.map (fun p => dumps_entry (fst p) (snd p)) ps)))%nat.
Proof.
  etransitivity; [|apply join_length].
  induction ps as [|p ps IH]; [simpl; lia|].
  cbn [List.map sum_list]. unfold id in *.
  change (length (p :: ps)) with (S (length ps)).
  assert (5 <= length (dumps_entry (fst p) (snd p)))%nat; [|lia].
  unfold dumps_entry. rewrite !length_app. simpl. lia.
Qed.

Lemma loads_payload (lines : list str) :
  Json.loads (payload lines) = Some (VList (imap entry_value lines)).
Proof.
  unfold payload.
  rewrite (imap_ext _ (fun i => dumps_entry (0 + i)) lines) by reflexivity.
  rewrite (imap_ext entry_value (fun i => entry_value (0 + i)) lines)
    by reflexivity.
  rewrite !imap_pairs.
  destruct lines as [|line lines]; [reflexivity|].
  set (ps := combine (seq 0 (length (line :: lines))) (line :: lines)).
  assert (Hps : ps <> []) by discriminate.
  pose proof (entries_length ps) as Hlen.
  assert (Hn : (1 <= length ps)%nat) by (unfold ps; simpl; lia).
  set (body := join (u ", ")
                    (List.map (fun p => dumps_entry (fst p) (snd p)) ps)) in *.
  unfold Json.loads. change (u "[" ++ body ++ u "]") with (91 :: body ++ [93]).
  cbn [Json.skip_ws]. change (Json.is_ws 91) with false. cbv iota.
  assert (Hhead : exists r1, body ++ [93] = 123 :: r1).
  { unfold body, ps. destruct lines; cbn; eauto. }
  destruct Hhead as (r1 & Hhead).
  rewrite (scan_array _ (body ++ [93]) 123 r1
             (List.map (fun p => entry_value (fst p) (snd p)) ps) []).
  - reflexivity.
  - now rewrite Hhead.
  - discriminate.
  - rewrite <- Hhead.
    apply (array_of_entries ps _ [] [] Hps).
    clear Hhead. clearbody body. clearbody ps.
    cbn [length]. rewrite length_app. cbn [length]. lia.
Qed.

(** X20: the entries written into the request are a JSON document that
    [json.loads] reads back as the list of the objects with their ids,
    0, 1, 2 and so on, and the lines as texts: the request is well
    formed whatever the lines hold. *)
Theorem payload_loads (lines : list str) :
  Json.loads (payload lines) = Some (VList (imap entry_value lines))
  /\ length (imap entry_value lines) = length lines.
Proof. split; [apply loads_payload|apply length_imap]. Qed.

Lemma get_texts_entries (ps : list (nat * str)) :
  get_texts (List.map (fun p => entry_value (fst p) (snd p)) ps)
  = inr (List.map (fun p => VStr (snd p)) ps).
Proof.
  induction ps as [|p ps IH]; [reflexivity|].
  cbn [List.map get_texts]. rewrite IH. reflexivity.
Qed.

Lemma texts_of_entries (lines : list str) :
  texts_of (imap entry_value lines) = inr (List.map VStr lines).
Proof.
  rewrite (imap_ext entry_value (fun i => entry_value (0 + i)) lines)
    by reflexivity.
  rewrite imap_pairs.
  assert (Hget := get_texts_entries (combine (seq 0 (length lines)) lines)).
  rewrite <- (List.map_map snd VStr) in Hget.
  replace (List.map snd (combine (seq 0 (length lines)) lines)) with lines
    in Hget.
  - destruct lines; [reflexivity|exact Hget].
  - clear. generalize 0%nat. induction lines as [|l lines IH]; intros k;
      [reflexivity|]. simpl. now rewrite <- IH.
Qed.

Lemma strip_fixed c t c' :
  Py.isspace c = false -> Py.isspace c' = false ->
  Py.strip (c :: t ++ [c']) = c :: t ++ [c'].
Proof.
  intros Hc Hc'. unfold Py.strip, Py.rstrip.
  rewrite app_comm_cons, rev_app_distr.
  change (rev [c'] ++ rev (c :: t)) with (c' :: rev (c :: t)).
  cbn [Py.lstrip]. rewrite Hc'.
  change (c' :: rev (c :: t)) with (rev [c'] ++ rev (c :: t)).
  rewrite <- rev_app_distr, rev_involutive.
  cbn [app Py.lstrip]. now rewrite Hc.
Qed.

Lemma payload_stripped (lines : list str) :
  Py.strip (payload lines) = payload lines.
Proof. unfold payload. now apply (strip_fixed 91 _ 93). Qed.

(** X21: an agent that answers a structured call with the very entries
    it was sent gets the identity translation: encoding the lines into
    the request, decoding the response and taking the texts gives the
    lines back. *)
Theorem echo_gives_identity (lines : list str) (pre : list str) (st : state)
        (w : World) :
  lines <> [] ->
  (length pre < 3)%nat ->
  answers (batch_prompt lines) (world st) (pre ++ [payload lines]) = Some w ->
  Forall (fun o => discarded lines (Py.strip o) = true) pre ->
  translate_lines lines st
  = (inr (List.map VStr lines),
     logged st w (asked (batch_prompt lines) (pre ++ [payload lines]))).
Proof.
  intros Hne Hlen Ha Hd.
  rewrite (translate_lines_at lines pre _ st w Hne Hlen Ha Hd _ eq_refl).
  rewrite payload_stripped.
  rewrite (accepted_body lines _ (imap entry_value lines)
             (List.map VStr lines)); [reflexivity| | |].
  - unfold reads. now rewrite loads_payload.
  - apply length_imap.
  - apply texts_of_entries.
Qed.

End Translator.

Arguments logged {World}.
Arguments appended {World}.
Arguments unlink {World}.

(** * The claims on concrete runs *)

(** The scripted agent answers garbage, an empty array and an object to
    the three structured calls; the per-line mode then translates the
    two non-empty lines. *)
Lemma retry_then_fallback_run :
  exists new,
    snd (translate_lines Mock.world Mock.exec Mock.repr Mock.lines3
                         (Mock.start Mock.script_retry))
    = logged (Mock.start Mock.script_retry)
             (world (snd (translate_lines Mock.world Mock.exec Mock.repr
                                          Mock.lines3
                                          (Mock.start Mock.script_retry))))
             (asked (batch_prompt Mock.lines3)
                    [Mock.not_json; u "[]"; u "{}"] ++ new)
    /\ fallback_calls Mock.lines3
         (fst (translate_lines Mock.world Mock.exec Mock.repr Mock.lines3
                               (Mock.start Mock.script_retry)))
         new.
Proof.
  refine (proj1 (retry_then_fallback Mock.world Mock.exec Mock.repr
                   Mock.lines3 Mock.not_json (u "[]") (u "{}")
                   (Mock.start Mock.script_retry)
                   [inr (u " Privet "); inr (u "Mir")] _ _ _ _)
                _ _ _ _).
  - discriminate.
  - vm_compute; reflexivity.
  - vm_compute; reflexivity.
  - vm_compute; reflexivity.
  - vm_compute; reflexivity.
  - apply surjective_pairing.
Defined.

(** C1 as stated fails: an agent that always answers text that is not
    JSON gets three structured calls, and then [translate_lines] raises
    [ValueError]; the per-line mode is not entered. *)
Lemma always_malformed_raises :
  Json.loads Mock.not_json = None
  /\ translate_lines unit (Mock.const_exec (inr Mock.not_json)) Mock.repr
                     [Mock.hello] Mock.start_unit
     = (inl (ValueError (u "Model response is not JSON array: "
                           ++ Mock.not_json)),
        State ∅ tt (asked (batch_prompt [Mock.hello])
                          [Mock.not_json; Mock.not_json; Mock.not_json])).
Proof. split; vm_compute; reflexivity. Qed.

(** The first structured call fails: [translate_lines] raises at once. *)
Lemma oracle_failure_run :
  translate_lines unit Mock.failing Mock.repr [Mock.hello] Mock.start_unit
  = (inl CalledProcessError,
     logged Mock.start_unit tt
            (asked (batch_prompt [Mock.hello]) []
               ++ [(batch_prompt [Mock.hello], inl CalledProcessError)])).
Proof.
  refine (proj2 (oracle_failure_propagates unit Mock.failing Mock.repr
                   [Mock.hello])
                [] Mock.start_unit tt CalledProcessError tt _ _ _ _ _).
  - discriminate.
  - simpl; lia.
  - reflexivity.
  - constructor.
  - reflexivity.
Defined.

(** C2 as stated fails: with two structured attempts and the per-line
    mode still to come, the failure of the first call is raised by
    [translate_lines], after this one call, and is fatal for the file
    in [main]. *)
Lemma batch_failure_is_fatal :
  translate_lines unit Mock.failing Mock.repr [Mock.hello] Mock.start_unit
  = (inl CalledProcessError,
     State ∅ tt [(batch_prompt [Mock.hello], inl CalledProcessError)])
  /\ exit_status unit Mock.failing Mock.repr [Mock.src] Mock.start_file = 1%Z
  /\ errors (snd (fst (main unit Mock.failing Mock.repr [Mock.src]
                            Mock.start_file)))
     = [(Mock.src, CalledProcessError)]
  /\ length (calls (snd (main unit Mock.failing Mock.repr [Mock.src]
                              Mock.start_file)))
     = 1%nat.
Proof. repeat split; vm_compute; reflexivity. Qed.



(** The per-line mode on a list with an empty line, and a structured
    response for a list made of one empty line. *)
Lemma blank_lines_run :
  ((forall i, Mock.lines3 !! i = Some [] ->
              [VStr (u "Privet"); VStr []; VStr (u "Mir")] !! i
              = Some (VStr []))
   /\ exists new,
       State ∅ [] [(line_prompt Mock.hello, inr (u "Privet"));
                   (line_prompt Mock.world_line, inr (u "Mir"))]
       = logged (Mock.start [inr (u "Privet"); inr (u "Mir")]) [] new
       /\ List.map fst new
          = List.map line_prompt (filter (fun l => l <> []) Mock.lines3))
  /\ translate_lines Mock.world Mock.exec Mock.repr [[]]
                     (Mock.start [inr (Mock.one_entry (u "x"))])
     = (inr [VStr (u "x")],
        logged (Mock.start [inr (Mock.one_entry (u "x"))]) []
               (asked (batch_prompt [[]]) [Mock.one_entry (u "x")])).
Proof.
  split.
  - refine (proj1 (blank_lines Mock.world Mock.exec Mock.repr Mock.lines3)
                  (Mock.start [inr (u "Privet"); inr (u "Mir")])
                  [VStr (u "Privet"); VStr []; VStr (u "Mir")]
                  (State ∅ [] [(line_prompt Mock.hello, inr (u "Privet"));
                               (line_prompt Mock.world_line, inr (u "Mir"))])
                  _).
    vm_compute; reflexivity.
  - refine (proj2 (blank_lines Mock.world Mock.exec Mock.repr [[]])
                  [] (Mock.one_entry (u "x"))
                  [[(u "id", VInt 0); (u "text", VStr (u "x"))]]
                  _ [] _ _ _ _ _ _).
    + discriminate.
    + simpl; lia.
    + vm_compute; reflexivity.
    + constructor.
    + vm_compute; reflexivity.
    + reflexivity.
Defined.

(** C4 as stated fails in structured mode: the input line is empty and
    the response carries a text for it; the output is that text, not
    the empty string. *)
Lemma blank_line_not_kept :
  translate_lines Mock.world Mock.exec Mock.repr [[]]
                  (Mock.start [inr (Mock.one_entry (u "x"))])
  = (inr [VStr (u "x")],
     State ∅ [] [(batch_prompt [[]], inr (Mock.one_entry (u "x")))])
  /\ VStr (u "x") <> VStr [].
Proof. split; [vm_compute; reflexivity|discriminate]. Qed.

(** The text lines of the two example blocks, translated in one
    structured call. *)
Lemma count_preservation_run :
  length [VStr privet; VStr Mock.mir; VStr Mock.proshchay]
  = length (fst (collect Mock.blocks))
  /\ length (fst (collect Mock.blocks)) = sum_list (snd (collect Mock.blocks))
  /\ snd (collect Mock.blocks)
     = List.map (fun block => length (drop 2 block)) Mock.blocks.
Proof.
  refine (count_preservation Mock.world Mock.exec Mock.repr Mock.blocks
            (Mock.start [inr (Mock.three_entries privet Mock.mir
                                                 Mock.proshchay)])
            [VStr privet; VStr Mock.mir; VStr Mock.proshchay]
            (State ∅ []
               [(batch_prompt (fst (collect Mock.blocks)),
                 inr (Mock.three_entries privet Mock.mir Mock.proshchay))])
            _).
  vm_compute; reflexivity.
Defined.

(** The response of the example, answered to the first call. *)
Lemma bracket_recovery_run :
  translate_lines Mock.world Mock.exec Mock.repr [Mock.hello]
                  (Mock.start [inr example_response])
  = (inr [VStr privet],
     logged (Mock.start [inr example_response]) []
            (asked (batch_prompt [Mock.hello]) [example_response])).
Proof.
  refine (proj2 (proj2 (proj2 (bracket_recovery Mock.world Mock.exec
                                                Mock.repr)))
                Mock.hello (Mock.start [inr example_response]) [] _).
  vm_compute; reflexivity.
Defined.

(** A block of one line, written alone. *)
Lemma short_block_run :
  write_blocks unit Mock.dst [([u "7"], 0%nat)] [] 0 Mock.start_unit
  = (inr 0%nat,
     appended Mock.start_unit Mock.dst
              (render (output_lines [u "7"] []) ++ [LF]))
  /\ (Py.splitlines (render (output_lines [u "7"] []) ++ [LF])
      = output_lines [u "7"] [] ++ [[]]
      /\ length (output_lines [u "7"] [] ++ [[]]) = (2 + 0 + 1)%nat)
  /\ output_lines [u "7"] [] = [u "7"] ++ [[]]
  /\ render (output_lines [u "7"] []) ++ [LF] <> render [u "7"] ++ [LF].
Proof.
  destruct (short_block_written unit Mock.dst [u "7"] [] 0 []
                                Mock.start_unit)
    as (Hrun & Hlines & Hshort).
  - discriminate.
  - reflexivity.
  - reflexivity.
  - vm_compute; reflexivity.
  - split; [exact Hrun|]. split; [apply Hlines; vm_compute; reflexivity|].
    apply Hshort. simpl; lia.
Defined.

(** C9 as stated fails: the file has one block with one text line, and
    the agent answers one entry whose text holds a line feed.  The
    response is accepted, the text is written as it is, and the block
    of the output file has four lines before its blank line, not
    three. *)
Lemma line_feed_in_text :
  List.map (fun block => length (drop 2 block))
           (parse_srt_blocks (join [LF] [u "1"; u "t"; Mock.hello] ++ [LF]))
  = [1%nat]
  /\ Json.loads Mock.two_lined
     = Some (VList [VDict [(u "id", VInt 0);
                           (u "text", VStr (u "a" ++ [LF] ++ u "b"))]])
  /\ fst (translate_file unit (Mock.const_exec (inr Mock.two_lined)) Mock.repr
                         Mock.src Mock.dst Mock.one_block_file)
     = inr tt
  /\ fs (snd (translate_file unit (Mock.const_exec (inr Mock.two_lined))
                             Mock.repr Mock.src Mock.dst Mock.one_block_file))
     !! Mock.dst
     = Some (join [LF] [u "1"; u "t"; u "a"; u "b"] ++ [LF; LF])
  /\ Py.splitlines (join [LF] [u "1"; u "t"; u "a"; u "b"] ++ [LF; LF])
     = [u "1"; u "t"; u "a"; u "b"; []].
Proof. repeat split; vm_compute; reflexivity. Qed.

(** An array whose first element is an object and whose second is a
    number, for two lines. *)
Lemma mixed_array_run :
  translate_lines Mock.world Mock.exec Mock.repr
                  [Mock.hello; Mock.world_line] (Mock.start [inr Mock.mixed])
  = (inl AttributeError,
     logged (Mock.start [inr Mock.mixed]) []
            (asked (batch_prompt [Mock.hello; Mock.world_line])
                   ([] ++ [Mock.mixed]))).
Proof.
  refine (mixed_array_raises Mock.world Mock.exec Mock.repr
            [Mock.hello; Mock.world_line] [] Mock.mixed [VDict []; VInt 1]
            (Mock.start [inr Mock.mixed]) [] _ _ _ _ _ _ _ _).
  - discriminate.
  - simpl; lia.
  - vm_compute; reflexivity.
  - constructor.
  - vm_compute; reflexivity.
  - reflexivity.
  - now exists [], [VInt 1].
  - apply Exists_cons_tl, Exists_cons_hd. reflexivity.
Defined.

(** The agent fails on the only file found: the file is aborted, the
    error is recorded, the output file is gone and the loop goes on. *)
Lemma file_error_run :
  main_loop unit Mock.failing Mock.repr [Mock.src]
            (Report 0 0 0 [], Mock.start_file)
  = main_loop unit Mock.failing Mock.repr []
      (Report 1 0 0 ([] ++ [(Mock.src, CalledProcessError)]),
       unlink (out_path_of Mock.src)
              (snd (translate_file unit Mock.failing Mock.repr Mock.src
                                   (out_path_of Mock.src) Mock.start_file)))
  /\ fs (unlink (out_path_of Mock.src)
                (snd (translate_file unit Mock.failing Mock.repr Mock.src
                                     (out_path_of Mock.src) Mock.start_file)))
     !! out_path_of Mock.src
     = None.
Proof.
  destruct (proj1 (file_error_is_contained unit Mock.failing Mock.repr)
                  (Report 0 0 0 []) Mock.start_file Mock.src []
                  CalledProcessError
                  (snd (translate_file unit Mock.failing Mock.repr Mock.src
                                       (out_path_of Mock.src)
                                       Mock.start_file)))
    as (Hloop & Hgone & _).
  - vm_compute; reflexivity.
  - vm_compute; reflexivity.
  - vm_compute; reflexivity.
  - split; [exact Hloop|exact Hgone].
Defined.

(** The example of the two blocks from end to end: the agent answers
    the three translations in one structured call, and the output file
    holds the translated text lines under the index and time lines of
    the input. *)
Example end_to_end :
  fst (translate_file Mock.world Mock.exec Mock.repr Mock.src Mock.dst
         (State {[ Mock.src := srt_body Mock.blocks ]}
                [inr (Mock.three_entries privet Mock.mir Mock.proshchay)] []))
  = inr tt
  /\ fs (snd (translate_file Mock.world Mock.exec Mock.repr Mock.src Mock.dst
                (State {[ Mock.src := srt_body Mock.blocks ]}
                       [inr (Mock.three_entries privet Mock.mir
                                                Mock.proshchay)] [])))
     !! Mock.dst
     = Some (serialized
               [[u "1"; u "00:00:01,000 --> 00:00:02,000"; privet; Mock.mir];
                [u "2"; u "00:00:03,000 --> 00:00:04,000"; Mock.proshchay]]).
Proof. split; vm_compute; reflexivity. Qed.

(** * The further properties on concrete runs *)

Lemma parse_serialized_run :
  parse_srt_blocks (serialized Mock.blocks) = Mock.blocks.
Proof.
  refine (parse_serialized Mock.blocks _). vm_compute; reflexivity.
Defined.

Lemma call_budget_run :
  fs (snd (translate_lines Mock.world Mock.exec Mock.repr Mock.lines3
                           (Mock.start Mock.script_retry)))
  = fs (Mock.start Mock.script_retry)
  /\ exists s f,
      calls (snd (translate_lines Mock.world Mock.exec Mock.repr Mock.lines3
                                  (Mock.start Mock.script_retry)))
      = calls (Mock.start Mock.script_retry) ++ s ++ f
      /\ (length s <= 3)%nat
      /\ Forall (fun ev => fst ev = batch_prompt Mock.lines3) s
      /\ List.map fst f
           `prefix_of` List.map line_prompt
                                (filter (fun l => l <> []) Mock.lines3)
      /\ (length (s ++ f)
          <= 3 + length (filter (fun l => l <> []) Mock.lines3))%nat.
Proof.
  refine (call_budget Mock.world Mock.exec Mock.repr Mock.lines3
            (Mock.start Mock.script_retry) _ _ _).
  apply surjective_pairing.
Defined.

Lemma translate_lines_errors_run :
  (last_call_failed unit Mock.start_unit
     (State ∅ tt (asked (batch_prompt [Mock.hello])
                        [Mock.not_json; Mock.not_json; Mock.not_json]))
     (ValueError (u "Model response is not JSON array: " ++ Mock.not_json))
   \/ own_error
        (ValueError (u "Model response is not JSON array: " ++ Mock.not_json)))
  /\ (ValueError (u "Model response is not JSON array: " ++ Mock.not_json)
      = ValueError (u "Translated output has unexpected length") ->
      last_call_failed unit Mock.start_unit
        (State ∅ tt (asked (batch_prompt [Mock.hello])
                           [Mock.not_json; Mock.not_json; Mock.not_json]))
        (ValueError (u "Model response is not JSON array: "
                       ++ Mock.not_json))).
Proof.
  destruct (translate_lines_errors unit (Mock.const_exec (inr Mock.not_json))
              Mock.repr [Mock.hello] Mock.start_unit
              (ValueError (u "Model response is not JSON array: "
                             ++ Mock.not_json))
              (State ∅ tt (asked (batch_prompt [Mock.hello])
                                 [Mock.not_json; Mock.not_json;
                                  Mock.not_json])))
    as [Hlist Hcheck].
  - vm_compute; reflexivity.
  - split; [apply Hlist; vm_compute; reflexivity|exact Hcheck].
Defined.

Lemma scalar_array_run :
  translate_lines Mock.world Mock.exec Mock.repr Mock.lines4
                  (Mock.start [inr Mock.scalars])
  = (inr (List.map (to_str Mock.repr)
                   [VStr (u "a"); VNone; VInt 5; VBool true]),
     logged (Mock.start [inr Mock.scalars]) []
            (asked (batch_prompt Mock.lines4) ([] ++ [Mock.scalars]))).
Proof.
  refine (scalar_array_coerced Mock.world Mock.exec Mock.repr Mock.lines4 []
            Mock.scalars [VStr (u "a"); VNone; VInt 5; VBool true]
            (Mock.start [inr Mock.scalars]) [] _ _ _ _ _ _ _).
  - discriminate.
  - simpl; lia.
  - vm_compute; reflexivity.
  - constructor.
  - vm_compute; reflexivity.
  - reflexivity.
  - reflexivity.
Defined.

Lemma unreadable_array_run :
  translate_lines Mock.world Mock.exec Mock.repr [Mock.hello]
                  (Mock.start [inr Mock.reversed])
  = (inl JSONDecodeError,
     logged (Mock.start [inr Mock.reversed]) []
            (asked (batch_prompt [Mock.hello]) ([] ++ [Mock.reversed]))).
Proof.
  refine (unreadable_array_raises Mock.world Mock.exec Mock.repr [Mock.hello]
            [] Mock.reversed (Mock.start [inr Mock.reversed]) [] _ _ _ _ _ _).
  - discriminate.
  - simpl; lia.
  - vm_compute; reflexivity.
  - constructor.
  - vm_compute; reflexivity.
  - vm_compute; reflexivity.
Defined.

Lemma write_stops_run :
  write_blocks unit Mock.dst
               [([u "1"; u "t"; Mock.hello; Mock.world_line], 2%nat)]
               [VStr privet; VStr [55296]] 0 Mock.start_unit
  = (inl UnicodeEncodeError,
     appended Mock.start_unit Mock.dst
              (render (output_lines [u "1"; u "t"; Mock.hello; Mock.world_line]
                                    [privet]))).
Proof.
  refine (write_stops_at_bad_item unit Mock.dst
            [u "1"; u "t"; Mock.hello; Mock.world_line] 2 []
            [VStr privet; VStr [55296]] 0 1 [privet] UnicodeEncodeError
            Mock.start_unit _ _ _ _ _ _).
  - discriminate.
  - vm_compute; reflexivity.
  - reflexivity.
  - reflexivity.
  - lia.
  - vm_compute; reflexivity.
Defined.


Lemma translate_file_frame_run :
  fs (snd (translate_file unit Mock.failing Mock.repr Mock.src Mock.dst
                          Mock.start_file))
  !! Mock.src
  = fs Mock.start_file !! Mock.src.
Proof.
  refine (translate_file_frame unit Mock.failing Mock.repr Mock.src Mock.dst
            Mock.start_file _ _ Mock.src _ _).
  - apply surjective_pairing.
  - discriminate.
Defined.

Lemma main_frame_run :
  fs (snd (main unit Mock.failing Mock.repr [Mock.src] Mock.start_file))
  !! Mock.src
  = fs Mock.start_file !! Mock.src.
Proof.
  refine (main_frame unit Mock.failing Mock.repr [Mock.src] Mock.start_file
            Mock.src _).
  vm_compute; reflexivity.
Defined.

Lemma out_path_injective_run : Mock.src = Mock.src.
Proof.
  refine (out_path_injective Mock.src Mock.src _ _ _).
  - vm_compute; reflexivity.
  - vm_compute; reflexivity.
  - reflexivity.
Defined.

Lemma rerun_skips_run :
  main unit Mock.failing Mock.repr [Mock.src; Mock.dst] Mock.done_file
  = (0%Z,
     Report (length (List.filter (fun p => negb (passed_over p))
                                 [Mock.src; Mock.dst])) 0
            (length (List.filter (fun p => negb (passed_over p))
                                 [Mock.src; Mock.dst])) [],
     Mock.done_file).
Proof.
  refine (rerun_skips unit Mock.failing Mock.repr [Mock.src; Mock.dst]
            Mock.done_file _).
  vm_compute; reflexivity.
Defined.

Lemma translate_batch_refolds_run :
  translate_batch unit (identity unit) Mock.dst Mock.blocks Mock.opened
  = (inr tt,
     appended Mock.opened Mock.dst
              (serialized (refold Mock.blocks
                                  [Mock.hello; Mock.world_line; Mock.goodbye])))
  /\ concat (List.map (drop 2)
                      (refold Mock.blocks
                              [Mock.hello; Mock.world_line; Mock.goodbye]))
     = [Mock.hello; Mock.world_line; Mock.goodbye].
Proof.
  refine (translate_batch_refolds unit (identity unit) Mock.dst Mock.blocks
            [Mock.hello; Mock.world_line; Mock.goodbye] Mock.opened
            Mock.opened _ _ _ _ _).
  - repeat constructor; discriminate.
  - reflexivity.
  - vm_compute. eauto.
  - reflexivity.
  - vm_compute; reflexivity.
Defined.

Lemma call_codex_stripped_run :
  Py.strip (u "Privet") = u "Privet"
  /\ (forall c t, u "Privet" = c :: t -> Py.isspace c = false)
  /\ (forall c t, u "Privet" = t ++ [c] -> Py.isspace c = false).
Proof.
  refine (call_codex_stripped Mock.world Mock.exec (line_prompt Mock.hello)
            (Mock.start [inr (u " Privet ")]) (u "Privet")
            (logged (Mock.start [inr (u " Privet ")]) []
                    [(line_prompt Mock.hello, inr (u " Privet "))]) _).
  vm_compute; reflexivity.
Defined.

Lemma echo_run :
  translate_lines Mock.world Mock.exec Mock.repr Mock.lines3
                  (Mock.start [inr (payload Mock.lines3)])
  = (inr (List.map VStr Mock.lines3),
     logged (Mock.start [inr (payload Mock.lines3)]) []
            (asked (batch_prompt Mock.lines3) ([] ++ [payload Mock.lines3]))).
Proof.
  refine (echo_gives_identity Mock.world Mock.exec Mock.repr Mock.lines3 []
            (Mock.start [inr (payload Mock.lines3)]) [] _ _ _ _).
  - discriminate.
  - simpl; lia.
  - vm_compute; reflexivity.
  - constructor.
Defined.
